(** * Nabha Vidya service worker (v2.0): caching-strategy engine

    A shallow embedding of the service worker of the Nabha Vidya web
    application (the v2.0 worker: three strategies, versioned cache
    partitions, preloading, background sync), followed by the theorems that
    relate it to its natural-language specification.

    Conventions of the embedding.
    - JavaScript strings are Rocq strings; [startsWith], [endsWith] and
      [includes] are the String.prototype methods of the same names.
    - The browser's CacheStorage is an association list of named caches in
      creation order (the order [caches.keys()] and [caches.match] use);
      a Cache is a finite map from request URL to stored response.
    - [async] functions are computations in a state-and-exception monad
      [M]: a rejected promise is [Throw], [await] is bind, [try]/[catch]
      is [try_catch].  A promise that is created but not awaited is
      recorded in the state as a pending [Task]; [settle] lets every
      pending task run to completion.
    - The network is an oracle held in the state: the n-th call to [fetch]
      made by the worker is answered by [network n call].
    - Opening, reading and deleting in cache storage always succeed;
      [cache.put] rejects the responses the platform refuses to store (see
      [storable]).  The strategies are given the requests the fetch
      listener lets through (GET, over http or https), for which the
      request itself is always acceptable as a key.
    - A handler runs without another handler interleaving with it, and the
      responses of the fetches one handler has in flight arrive in the
      order the fetches were issued. *)

From Stdlib Require Import ZArith Ascii String List Bool.
From stdpp Require Import base option countable gmap strings list.

Import ListNotations.
Local Open Scope string_scope.
Local Open Scope list_scope.

(** ** JavaScript string methods *)

(** [s.startsWith(searchString)] *)
Fixpoint startsWith (s searchString : string) {struct searchString} : bool :=
  match searchString with
  | EmptyString => true
  | String a p =>
      match s with
      | EmptyString => false
      | String b r => Ascii.eqb a b && startsWith r p
      end
  end.

(** [s.endsWith(searchString)] *)
Fixpoint endsWith (s searchString : string) : bool :=
  String.eqb s searchString ||
  match s with
  | EmptyString => false
  | String _ r => endsWith r searchString
  end.

(** [s.includes(searchString)] *)
Fixpoint includes (s searchString : string) : bool :=
  startsWith s searchString ||
  match s with
  | EmptyString => false
  | String _ r => includes r searchString
  end.

(** ** Request classification (helper functions of the worker) *)

(** The alternatives of the regular expression
    [/\.(css|js|png|jpg|jpeg|gif|ico|svg|woff|woff2|ttf|eot)$/]. *)
Definition STATIC_EXTENSIONS : list string :=
  ["css"; "js"; "png"; "jpg"; "jpeg"; "gif"; "ico"; "svg";
   "woff"; "woff2"; "ttf"; "eot"].

(** One attempt of the regular expression at the head of [s]: a literal
    dot, then one of the alternatives, then the end of the input. *)
Definition static_regex_at (s : string) : bool :=
  match s with
  | String c rest =>
      Ascii.eqb c "."%char && existsb (String.eqb rest) STATIC_EXTENSIONS
  | EmptyString => false
  end.

(** [pathname.match(/\.(css|...|eot)$/)] as a truth value: the expression
    is not anchored on the left, so every start position is tried. *)
Fixpoint static_regex_match (s : string) : bool :=
  static_regex_at s ||
  match s with
  | EmptyString => false
  | String _ rest => static_regex_match rest
  end.

Definition isStaticAsset (pathname : string) : bool :=
  static_regex_match pathname ||
  String.eqb pathname "/" ||
  endsWith pathname ".html".

Definition isDynamicAsset (pathname : string) : bool :=
  startsWith pathname "/assets/videos/" ||
  includes pathname "api" ||
  includes pathname "user-content".

(** The four classes a request path is sorted into by the chain of
    conditionals in [handleFetch]. *)
Inductive Classification := Static | Dynamic | Api | Default.

Definition classify (pathname : string) : Classification :=
  if isStaticAsset pathname then Static
  else if isDynamicAsset pathname then Dynamic
  else if startsWith pathname "/api/" then Api
  else Default.

(** ** URLs, requests, responses *)

(** The parts of a parsed URL the worker looks at ([new URL(request.url)]). *)
Record URL := mkURL {
  protocol : string;
  host : string;
  pathname : string;
  search : string
}.

#[global] Instance URL_eq_dec : EqDecision URL.
Proof. solve_decision. Defined.

#[global] Instance URL_countable : Countable URL :=
  inj_countable'
    (fun u => (protocol u, host u, pathname u, search u))
    (fun t => match t with (p, h, n, q) => mkURL p h n q end)
    (fun u => match u with mkURL _ _ _ _ => eq_refl end).

Inductive RequestMode := Navigate | SameOrigin | NoCors | Cors.

Record Request := mkRequest {
  method : string;
  url : URL;
  mode : RequestMode
}.

(** A response snapshot: what a Cache stores and a handler returns. *)
Record Response := mkResponse {
  status : Z;
  statusText : string;
  headers : list (string * string);
  body : string
}.

(** [response.ok]: the status is in the range 200-299. *)
Definition ok (r : Response) : bool :=
  (200 <=? status r)%Z && (status r <=? 299)%Z.

(** A deferred submission; the worker reads [submission.id] and sends the
    whole record as the JSON body. *)
Record Submission := mkSubmission {
  id : Z;
  payload : string
}.

(** Values a rejected promise carries. *)
Inductive Exn :=
| TypeError (message : string)
| FailedToFetch (input : string) (code : Z).

(** What an [async] function of the worker may resolve to. *)
Inductive Value :=
| VResponse (r : Response)
| VUndefined.

(** ** The world: network, cache storage, console, pending promises *)

Inductive FetchCall :=
| FetchRequest (request : Request)
| FetchGetNoCache (input : string)
| FetchPostJson (input : string) (submission : Submission).

Inductive FetchOutcome :=
| Resolved (r : Response)
| Rejected (e : Exn).

Inductive LogEvent :=
| LogCached (input : string)
| LogSkipped (input : string) (e : Exn)
| LogInstalling
| LogCachingStatic
| LogStaticCached (successful total : nat)
| LogDynamicInit
| LogActivating
| LogDeleting (cacheName : string)
| LogCacheHit (u : URL)
| LogNetworkFetch (u : URL)
| LogNetworkFirst (u : URL)
| LogNetworkFailed (u : URL)
| LogBackgroundFailed (e : Exn)
| LogStale (u : URL)
| LogFresh (u : URL)
| LogFetchError (e : Exn)
| LogSynced (i : Z)
| LogSyncFailed (e : Exn)
| LogSyncError (e : Exn).

(** A promise that was started and not awaited by the code that made it. *)
Inductive Task :=
| Revalidate (cacheName : string) (request : Request) (outcome : FetchOutcome)
| Put (cacheName : string) (key : URL) (response : Response).

(** The world a handler runs in.
    - [caches]: the CacheStorage, partitions in creation order;
    - [network]: the oracle answering the worker's fetches;
    - [fetched]: the fetches issued so far, oldest first;
    - [console]: what was logged so far;
    - [pending]: the promises started and not awaited;
    - [queue]: deferred submissions kept outside the worker; the worker's
      storage functions are placeholders that neither read nor write it. *)
Record State := mkState {
  caches : list (string * gmap URL Response);
  network : nat -> FetchCall -> FetchOutcome;
  fetched : list FetchCall;
  console : list LogEvent;
  pending : list Task;
  queue : list Submission
}.

Definition with_caches (cs : list (string * gmap URL Response)) (s : State) : State :=
  mkState cs (network s) (fetched s) (console s) (pending s) (queue s).
Definition with_fetched (f : list FetchCall) (s : State) : State :=
  mkState (caches s) (network s) f (console s) (pending s) (queue s).
Definition with_console (c : list LogEvent) (s : State) : State :=
  mkState (caches s) (network s) (fetched s) c (pending s) (queue s).
Definition with_pending (p : list Task) (s : State) : State :=
  mkState (caches s) (network s) (fetched s) (console s) p (queue s).

(** ** The promise monad *)

Inductive Result (A : Type) :=
| Ok (a : A)
| Throw (e : Exn).
Arguments Ok {A} a.
Arguments Throw {A} e.

Definition M (A : Type) : Type := State -> Result A * State.

Definition ret {A} (a : A) : M A := fun s => (Ok a, s).
Definition throw {A} (e : Exn) : M A := fun s => (Throw e, s).
Definition bind {A B} (m : M A) (k : A -> M B) : M B :=
  fun s => match m s with
           | (Ok a, s') => k a s'
           | (Throw e, s') => (Throw e, s')
           end.
Definition try_catch {A} (m : M A) (handler : Exn -> M A) : M A :=
  fun s => match m s with
           | (Ok a, s') => (Ok a, s')
           | (Throw e, s') => handler e s'
           end.

Notation "x <- m ;; k" := (bind m (fun x => k))
  (at level 100, m at next level, right associativity).
Notation "m ;;; k" := (bind m (fun _ => k))
  (at level 100, right associativity).

Definition console_log (ev : LogEvent) : M unit :=
  fun s => (Ok tt, with_console (console s ++ [ev]) s).

(** Several [console.log] calls in a row. *)
Definition console_logs (evs : list LogEvent) : M unit :=
  fun s => (Ok tt, with_console (console s ++ evs) s).

(** A promise left to run on its own. *)
Definition spawn (t : Task) : M unit :=
  fun s => (Ok tt, with_pending (pending s ++ [t]) s).

(** [fetch(...)] without awaiting it: only the outcome the promise will
    settle with is known to the model, the caller has not seen it yet. *)
Definition fetch_start (call : FetchCall) : M FetchOutcome :=
  fun s =>
    (Ok (network s (length (fetched s)) call),
     with_fetched (fetched s ++ [call]) s).

Definition await_fetch (outcome : FetchOutcome) : M Response :=
  match outcome with
  | Resolved r => ret r
  | Rejected e => throw e
  end.

(** [await fetch(...)]: the call is recorded and answered by the oracle. *)
Definition fetch (call : FetchCall) : M Response :=
  outcome <- fetch_start call ;;
  await_fetch outcome.

Inductive Settled (A : Type) :=
| Fulfilled (v : A)
| RejectedWith (e : Exn).
Arguments Fulfilled {A} v.
Arguments RejectedWith {A} e.

Definition is_fulfilled {A} (r : Settled A) : bool :=
  match r with
  | Fulfilled _ => true
  | RejectedWith _ => false
  end.

(** [Promise.allSettled]: every promise runs and its result is recorded
    whether it resolved or rejected.  The promises of the array are
    started in array order, so their fetches are issued in that order;
    the embedding also lets them finish in that order, which is the
    schedule where the responses arrive in the order of the fetches.
    Promises that write different cache entries leave the same cache
    storage under every other schedule. *)
Fixpoint allSettled {A} (ps : list (M A)) : M (list (Settled A)) :=
  match ps with
  | [] => ret []
  | p :: rest =>
      fun s =>
        match p s with
        | (Ok a, s') => (rs <- allSettled rest ;; ret (Fulfilled a :: rs)) s'
        | (Throw e, s') => (rs <- allSettled rest ;; ret (RejectedWith e :: rs)) s'
        end
  end.

Fixpoint first_rejection {A} (rs : list (Settled A)) : option Exn :=
  match rs with
  | [] => None
  | RejectedWith e :: _ => Some e
  | Fulfilled _ :: rest => first_rejection rest
  end.

Fixpoint fulfilled_values {A} (rs : list (Settled A)) : list A :=
  match rs with
  | [] => []
  | Fulfilled v :: rest => v :: fulfilled_values rest
  | RejectedWith _ :: rest => fulfilled_values rest
  end.

(** [Promise.all]: every promise runs; the result rejects with the first
    rejection, if there is one. *)
Definition promise_all {A} (ps : list (M A)) : M (list A) :=
  rs <- allSettled ps ;;
  match first_rejection rs with
  | Some e => throw e
  | None => ret (fulfilled_values rs)
  end.

(** [for (const x of items) { body }] *)
Fixpoint for_of {A} (items : list A) (body : A -> M unit) : M unit :=
  match items with
  | [] => ret tt
  | x :: rest => body x ;;; for_of rest body
  end.

(** ** Cache storage *)

Fixpoint storage_get (cs : list (string * gmap URL Response)) (name : string)
  : option (gmap URL Response) :=
  match cs with
  | [] => None
  | (n, c) :: rest => if String.eqb n name then Some c else storage_get rest name
  end.

(** The entry a named partition holds for a request identity. *)
Definition lookup_in (cs : list (string * gmap URL Response))
  (name : string) (key : URL) : option Response :=
  match storage_get cs name with
  | Some c => c !! key
  | None => None
  end.

Fixpoint storage_put (cs : list (string * gmap URL Response))
  (name : string) (key : URL) (r : Response) : list (string * gmap URL Response) :=
  match cs with
  | [] => []
  | (n, c) :: rest =>
      if String.eqb n name then (n, <[key := r]> c) :: rest
      else (n, c) :: storage_put rest name key r
  end.

Definition storage_open (cs : list (string * gmap URL Response)) (name : string)
  : list (string * gmap URL Response) :=
  match storage_get cs name with
  | Some _ => cs
  | None => cs ++ [(name, ∅)]
  end.

Fixpoint storage_match (cs : list (string * gmap URL Response)) (key : URL)
  : option Response :=
  match cs with
  | [] => None
  | (_, c) :: rest =>
      match c !! key with
      | Some r => Some r
      | None => storage_match rest key
      end
  end.

Definition storage_delete (cs : list (string * gmap URL Response)) (name : string)
  : list (string * gmap URL Response) :=
  List.filter (fun nc => negb (String.eqb (fst nc) name)) cs.

(** [caches.open(name)]: creates the partition when it is absent; the
    handle it resolves to is modelled by the partition's name. *)
Definition caches_open (name : string) : M string :=
  fun s => (Ok name, with_caches (storage_open (caches s) name) s).

(** [cache.match(key)] *)
Definition cache_match (cache : string) (key : URL) : M (option Response) :=
  fun s => (Ok (lookup_in (caches s) cache key), s).

(** ASCII lower case: header names compare without regard to case. *)
Definition lower_char (c : ascii) : ascii :=
  let n := nat_of_ascii c in
  if Nat.leb 65 n && Nat.leb n 90 then ascii_of_nat (n + 32) else c.

Fixpoint lower (s : string) : string :=
  match s with
  | EmptyString => EmptyString
  | String c r => String (lower_char c) (lower r)
  end.

Definition is_blank (c : ascii) : bool :=
  Ascii.eqb c " "%char || Ascii.eqb c (ascii_of_nat 9).

(** The members of a comma-separated header value, blanks dropped;
    [current] is the member being read. *)
Fixpoint split_members (current : string) (s : string) : list string :=
  match s with
  | EmptyString => [current]
  | String c r =>
      if Ascii.eqb c ","%char then current :: split_members EmptyString r
      else if is_blank c then split_members current r
      else split_members (current +:+ String c EmptyString) r
  end.

(** The response has a Vary header with the member [*]. *)
Definition has_vary_star (r : Response) : bool :=
  existsb
    (fun h =>
       String.eqb (lower (fst h)) "vary" &&
       existsb (String.eqb "*") (split_members EmptyString (snd h)))
    (headers r).

(** The responses [cache.put] accepts: the platform rejects, with a
    TypeError, a response of status 206 and a response whose Vary header
    has the member [*]. *)
Definition storable (r : Response) : bool :=
  negb (Z.eqb (status r) 206) && negb (has_vary_star r).

(** What [cache.put] rejects with. *)
Definition put_rejected : Exn := TypeError "Cache.put".

(** [cache.put(key, response.clone())] *)
Definition cache_put (cache : string) (key : URL) (r : Response) : M unit :=
  fun s =>
    if storable r
    then (Ok tt, with_caches (storage_put (caches s) cache key r) s)
    else (Throw put_rejected, s).

(** [caches.match(request)]: the first hit over all partitions. *)
Definition caches_match (key : URL) : M (option Response) :=
  fun s => (Ok (storage_match (caches s) key), s).

(** [caches.keys()] *)
Definition caches_keys : M (list string) :=
  fun s => (Ok (map fst (caches s)), s).

(** [caches.delete(name)] *)
Definition caches_delete (name : string) : M bool :=
  fun s =>
    (Ok (existsb (String.eqb name) (map fst (caches s))),
     with_caches (storage_delete (caches s) name) s).

(** The partition entry for [key] in the state [s]. *)
Definition partition_get (name : string) (key : URL) (s : State) : option Response :=
  lookup_in (caches s) name key.

(** ** The worker *)

Definition STATIC_CACHE : string := "nabha-static-v2.0".
Definition DYNAMIC_CACHE : string := "nabha-dynamic-v2.0".

Definition STATIC_ASSETS : list string :=
  ["/"; "/index.html"; "/student-dashboard.html"; "/teacher-dashboard.html";
   "/styles.css"; "/script.js"; "/manifest.json"; "/logo-removebg-preview.png";
   "/assets/icons/icon-192.png"; "/assets/icons/icon-512.png"].

(** The filter of the activate handler: a partition is deleted when this
    holds of its name. *)
Definition is_old_cache (cacheName : string) : bool :=
  negb (String.eqb cacheName STATIC_CACHE) &&
  negb (String.eqb cacheName DYNAMIC_CACHE) &&
  startsWith cacheName "nabha-".

(** The callback the activate handler maps over the old names. *)
Definition delete_logged (cacheName : string) : M bool :=
  console_log (LogDeleting cacheName) ;;;
  caches_delete cacheName.

(** The activate handler (the part that touches cache storage;
    [clients.claim()] has no effect on it). *)
Definition activate : M unit :=
  console_log LogActivating ;;;
  cacheNames <- caches_keys ;;
  _ <- promise_all (map delete_logged (List.filter is_old_cache cacheNames)) ;;
  ret tt.

(** *** Strategies *)

Definition cacheFirst (request : Request) (cacheName : string) : M Response :=
  cache <- caches_open cacheName ;;
  cachedResponse <- cache_match cache (url request) ;;
  match cachedResponse with
  | Some hit =>
      console_log (LogCacheHit (url request)) ;;;
      ret hit
  | None =>
      console_log (LogNetworkFetch (url request)) ;;;
      networkResponse <- fetch (FetchRequest request) ;;
      (if ok networkResponse
       then cache_put cache (url request) networkResponse
       else ret tt) ;;;
      ret networkResponse
  end.

Definition networkFirst (request : Request) (cacheName : string) : M Response :=
  cache <- caches_open cacheName ;;
  try_catch
    (console_log (LogNetworkFirst (url request)) ;;;
     networkResponse <- fetch (FetchRequest request) ;;
     (if ok networkResponse
      then cache_put cache (url request) networkResponse
      else ret tt) ;;;
     ret networkResponse)
    (fun error =>
       console_log (LogNetworkFailed (url request)) ;;;
       cachedResponse <- cache_match cache (url request) ;;
       match cachedResponse with
       | Some hit => ret hit
       | None => throw error
       end).

(** What [fetchPromise] settles with, given the outcome of the fetch it
    wraps: the [then] callback starts a [cache.put] it does not wait for
    and passes the response on; the [catch] callback logs and returns
    nothing, so the promise then resolves to [undefined]. *)
Definition revalidation (cache : string) (request : Request)
  (outcome : FetchOutcome) : M Value :=
  match outcome with
  | Resolved response =>
      (if ok response
       then spawn (Put cache (url request) response)
       else ret tt) ;;;
      ret (VResponse response)
  | Rejected err =>
      console_log (LogBackgroundFailed err) ;;;
      ret VUndefined
  end.

Definition staleWhileRevalidate (request : Request) (cacheName : string) : M Value :=
  cache <- caches_open cacheName ;;
  cachedResponse <- cache_match cache (url request) ;;
  outcome <- fetch_start (FetchRequest request) ;;
  match cachedResponse with
  | Some hit =>
      spawn (Revalidate cache request outcome) ;;;
      console_log (LogStale (url request)) ;;;
      ret (VResponse hit)
  | None =>
      console_log (LogFresh (url request)) ;;;
      revalidation cache request outcome
  end.

(** *** Pending promises *)

Definition run_task (t : Task) : M unit :=
  match t with
  | Put cache key response => cache_put cache key response
  | Revalidate cache request outcome =>
      revalidation cache request outcome ;;; ret tt
  end.

(** Every promise pending in [s] runs; the ones they start stay pending. *)
Definition settle_round (s : State) : State :=
  fold_left (fun acc t => snd (run_task t acc)) (pending s) (with_pending [] s).

(** A revalidation starts at most a [Put] and a [Put] starts nothing, so
    two rounds leave no promise pending. *)
Definition settle (s : State) : State := settle_round (settle_round s).

(** *** Background sync *)

Definition getPendingSubmissions : M (list Submission) := ret [].

Definition removePendingSubmission (i : Z) : M bool := ret true.

Definition submitFeedback (submission : Submission) : M Response :=
  fetch (FetchPostJson "/api/feedback" submission).

(** The body of the [for] loop of [syncFeedbackSubmissions], for one
    submission; [removePending] is the storage function it calls. *)
Definition sync_one (removePending : Z -> M bool) (submission : Submission)
  : M unit :=
  try_catch
    (_ <- submitFeedback submission ;;
     _ <- removePending (id submission) ;;
     console_log (LogSynced (id submission)))
    (fun error => console_log (LogSyncFailed error)).

(** The body of [syncFeedbackSubmissions], with the two storage functions
    it calls as arguments. *)
Definition syncFeedbackSubmissionsWith
  (getPending : M (list Submission)) (removePending : Z -> M bool) : M unit :=
  try_catch
    (pendingSubmissions <- getPending ;;
     for_of pendingSubmissions (sync_one removePending))
    (fun error => console_log (LogSyncError error)).

Definition syncFeedbackSubmissions : M unit :=
  syncFeedbackSubmissionsWith getPendingSubmissions removePendingSubmission.

(** The sync listener. *)
Definition sync_listener (tag : string) : M unit :=
  if String.eqb tag "feedback-submission" then syncFeedbackSubmissions else ret tt.

(** *** JSON text of the offline response *)

Definition dquote : string := String (Ascii.ascii_of_nat 34) EmptyString.

Definition json_string (v : string) : string := dquote ++ v ++ dquote.

Fixpoint json_members (fields : list (string * string)) : string :=
  match fields with
  | [] => ""
  | [(k, v)] => json_string k ++ ":" ++ json_string v
  | (k, v) :: rest => json_string k ++ ":" ++ json_string v ++ "," ++ json_members rest
  end.

(** [JSON.stringify] of an object whose members are plain strings. *)
Definition JSON_stringify (fields : list (string * string)) : string :=
  "{" ++ json_members fields ++ "}".

(** The response synthesized when nothing else is available. *)
Definition offline_response : Response :=
  mkResponse 503 "Service Unavailable"
    [("Content-Type", "application/json")]
    (JSON_stringify [("error", "Offline");
                     ("message", "This content is not available offline")]).

Section Worker.

(** [self.location]: the URL the worker script was loaded from. *)
Variable self_location : URL.

(** How the platform turns the worker's path constants into URLs: each
    of them is an absolute path without dot segments, query or fragment,
    so it is the path of the URL, on the worker's own origin.  (Other
    strings would need the platform's URL parser.) *)
Definition resolve (input : string) : URL :=
  mkURL (protocol self_location) (host self_location) input "".

(** *** Preloading *)

Definition safeCacheAdd (cache : string) (input : string) : M bool :=
  try_catch
    (response <- fetch (FetchGetNoCache input) ;;
     (if negb (ok response)
      then throw (FailedToFetch input (status response))
      else ret tt) ;;;
     cache_put cache (resolve input) response ;;;
     console_log (LogCached input) ;;;
     ret true)
    (fun err =>
       console_log (LogSkipped input err) ;;;
       ret false).

(** The callback the install handler runs on the opened static partition,
    for a manifest [assets] (the worker passes [STATIC_ASSETS]).  It logs,
    starts the fetch of every asset and waits for all of them; [meanwhile]
    is what other callbacks log while those fetches are in flight.  The
    fetches are issued in manifest order, and their responses are taken to
    arrive in that order. *)
Definition cacheStaticAssetsWhile (meanwhile : list LogEvent)
  (assets : list string) (cache : string) : M unit :=
  console_log LogCachingStatic ;;;
  console_logs meanwhile ;;;
  results <- allSettled (map (fun asset => safeCacheAdd cache asset) assets) ;;
  let successful := length (List.filter is_fulfilled results) in
  console_log (LogStaticCached successful (length assets)).

Definition cacheStaticAssets (assets : list string) (cache : string) : M unit :=
  cacheStaticAssetsWhile [] assets cache.

(** The install handler ([self.skipWaiting()] does not touch the caches):
    both partitions are opened; the callback of the dynamic one logs while
    the fetches of the static one are in flight. *)
Definition install : M unit :=
  console_log LogInstalling ;;;
  static <- caches_open STATIC_CACHE ;;
  _ <- caches_open DYNAMIC_CACHE ;;
  cacheStaticAssetsWhile [LogDynamicInit] STATIC_ASSETS static.

(** *** Fetch interception *)

Definition handleOfflineFallback (request : Request) : M Response :=
  fallback <-
    (match mode request with
     | Navigate =>
         cache <- caches_open STATIC_CACHE ;;
         cache_match cache (resolve "/index.html")
     | _ => ret None
     end) ;;
  match fallback with
  | Some document => ret document
  | None =>
      cachedResponse <- caches_match (url request) ;;
      match cachedResponse with
      | Some hit => ret hit
      | None => ret offline_response
      end
  end.

Definition fmapM {A B} (f : A -> B) (m : M A) : M B :=
  a <- m ;; ret (f a).

(** The [try] block of [handleFetch]. *)
Definition dispatch (request : Request) : M Value :=
  let pathname := pathname (url request) in
  if isStaticAsset pathname then
    fmapM VResponse (cacheFirst request STATIC_CACHE)
  else if isDynamicAsset pathname then
    fmapM VResponse (networkFirst request DYNAMIC_CACHE)
  else if startsWith pathname "/api/" then
    staleWhileRevalidate request DYNAMIC_CACHE
  else
    fmapM VResponse (networkFirst request DYNAMIC_CACHE).

Definition handleFetch (request : Request) : M Value :=
  try_catch
    (dispatch request)
    (fun error =>
       console_log (LogFetchError error) ;;;
       fmapM VResponse (handleOfflineFallback request)).

(** The fetch listener: [None] when the worker does not call
    [event.respondWith]. *)
Definition fetch_listener (request : Request) : option (M Value) :=
  if negb (String.eqb (method request) "GET") then None
  else if negb (startsWith (protocol (url request)) "http") then None
  else Some (handleFetch request).

End Worker.

(** ** The first worker (sw.js): its activate handler *)

Module Legacy.

Definition CACHE_NAME : string := "vidya-cache-v1".

Definition is_other_cache (key : string) : bool :=
  negb (String.eqb key CACHE_NAME).

Definition activate : M unit :=
  keys <- caches_keys ;;
  _ <- promise_all (map caches_delete (List.filter is_other_cache keys)) ;;
  ret tt.

End Legacy.

(** ** The classification as the specification words it *)

(** The extensions the specification lists for the static class. *)
Definition spec_static_extensions : list string :=
  ["css"; "js"; "png"; "jpg"; "jpeg"; "gif"; "ico"; "svg";
   "woff"; "woff2"; "ttf"; "eot"].

(** "extension in the set, or path is the root, or path ends in .html" *)
Definition static_pattern (p : string) : Prop :=
  (exists stem e, In e spec_static_extensions /\ p = stem +:+ "." +:+ e) \/
  p = "/" \/
  (exists stem, p = stem +:+ ".html").

(** "begins with /assets/videos/, or contains api or user-content" *)
Definition dynamic_pattern (p : string) : Prop :=
  (exists rest, p = "/assets/videos/" +:+ rest) \/
  (exists before after, p = before +:+ "api" +:+ after) \/
  (exists before after, p = before +:+ "user-content" +:+ after).

(** "begins with /api/" *)
Definition api_pattern (p : string) : Prop :=
  exists rest, p = "/api/" +:+ rest.

(** The policy run for each class (the specification's [execute]). *)
Definition execute (c : Classification) (request : Request) : M Value :=
  match c with
  | Static => fmapM VResponse (cacheFirst request STATIC_CACHE)
  | Dynamic => fmapM VResponse (networkFirst request DYNAMIC_CACHE)
  | Api => staleWhileRevalidate request DYNAMIC_CACHE
  | Default => fmapM VResponse (networkFirst request DYNAMIC_CACHE)
  end.

(** The response the fallback gives in a state, read off the partitions. *)
Definition fallback_choice (self_location : URL) (request : Request) (s : State)
  : Response :=
  let document :=
    match mode request with
    | Navigate => partition_get STATIC_CACHE (resolve self_location "/index.html") s
    | _ => None
    end in
  match document with
  | Some d => d
  | None =>
      match storage_match (caches s) (url request) with
      | Some hit => hit
      | None => offline_response
      end
  end.

(** Every entry of [cs'] is either an entry [cs] already had, or an ok
    response. *)
Definition only_ok_written (cs cs' : list (string * gmap URL Response)) : Prop :=
  forall name key r,
    lookup_in cs' name key = Some r ->
    lookup_in cs name key = Some r \/ ok r = true.

Definition stores_only_ok (s s' : State) : Prop :=
  only_ok_written (caches s) (caches s').

(** Every cached snapshot is a successful response. *)
Definition all_cached_ok (s : State) : Prop :=
  forall name key r, partition_get name key s = Some r -> ok r = true.

(** The partitions once the revalidation started on [cs] has settled. *)
Definition revalidated (cs : list (string * gmap URL Response))
  (cacheName : string) (key : URL) (outcome : FetchOutcome)
  : list (string * gmap URL Response) :=
  match outcome with
  | Resolved r =>
      if ok r && storable r then storage_put cs cacheName key r else cs
  | Rejected _ => cs
  end.

(** ** Concrete worlds for the examples *)

Definition example_location : URL := mkURL "https:" "nabha.example" "/sw.js" "".

Definition example_url (path : string) : URL :=
  mkURL "https:" "nabha.example" path "".

Definition failed_fetch : Exn := TypeError "Failed to fetch".

Definition ok_response (content : string) : Response :=
  mkResponse 200 "OK" [] content.

(** A network that is down. *)
Definition offline_network : nat -> FetchCall -> FetchOutcome :=
  fun _ _ => Rejected failed_fetch.

(** No partition, nothing fetched, nothing pending, an empty queue. *)
Definition empty_world (net : nat -> FetchCall -> FetchOutcome) : State :=
  mkState [] net [] [] [] [].

Definition api_request : Request :=
  mkRequest "GET" (example_url "/api/lessons") Cors.

(** A network on which /a.css is served and every other fetch throws. *)
Definition preload_network : nat -> FetchCall -> FetchOutcome :=
  fun _ call =>
    match call with
    | FetchGetNoCache input =>
        if String.eqb input "/a.css" then Resolved (ok_response "A")
        else Rejected failed_fetch
    | _ => Rejected failed_fetch
    end.

(** The static partition is open and empty, as when the install handler
    starts preloading. *)
Definition preload_world : State :=
  mkState [(STATIC_CACHE, ∅)] preload_network [] [] [] [].

(** A network on which every asset of the manifest is served except
    /manifest.json, whose fetch throws. *)
Definition install_network : nat -> FetchCall -> FetchOutcome :=
  fun _ call =>
    match call with
    | FetchGetNoCache input =>
        if String.eqb input "/manifest.json" then Rejected failed_fetch
        else Resolved (ok_response input)
    | _ => Rejected failed_fetch
    end.

(** A site that serves /styles.css and /lessons, answers 404 for
    /missing.css, and is unreachable for everything else. *)
Definition site_network : nat -> FetchCall -> FetchOutcome :=
  fun _ call =>
    match call with
    | FetchRequest r =>
        if String.eqb (pathname (url r)) "/styles.css"
        then Resolved (ok_response "css")
        else if String.eqb (pathname (url r)) "/lessons"
        then Resolved (ok_response "fresh")
        else if String.eqb (pathname (url r)) "/missing.css"
        then Resolved (mkResponse 404 "Not Found" [] "")
        else Rejected failed_fetch
    | _ => Rejected failed_fetch
    end.

Definition get_request (path : string) : Request :=
  mkRequest "GET" (example_url path) Cors.

(** The dynamic partition holds an older copy of /lessons. *)
Definition stale_world (net : nat -> FetchCall -> FetchOutcome) : State :=
  mkState
    [(DYNAMIC_CACHE, {[ example_url "/lessons" := ok_response "stale" ]})]
    net [] [] [] [].

Definition submission (i : Z) : Submission := mkSubmission i "feedback".

(** A network that accepts every submission except the one with id 2. *)
Definition sync_network : nat -> FetchCall -> FetchOutcome :=
  fun _ call =>
    match call with
    | FetchPostJson _ x =>
        if Z.eqb (id x) 2 then Rejected failed_fetch
        else Resolved (ok_response "")
    | _ => Rejected failed_fetch
    end.

(** A network that answers every delivery with a server error. *)
Definition failing_server : nat -> FetchCall -> FetchOutcome :=
  fun _ _ => Resolved (mkResponse 500 "Internal Server Error" [] "").



(** ** The rest of the worker: push and notification handlers *)

(** What [a || b] evaluates to when [a] is read from the push payload and
    [b] is a constant of the worker. *)
Inductive OrElse (J D : Type) :=
| FromPayload (v : J)
| Fallback (d : D).
Arguments FromPayload {J D} v.
Arguments Fallback {J D} d.

(** What [event.data.json()] gives: [null], or a value whose property
    [name] is [field name] ([None] when the property is undefined). *)
Inductive PushPayload (J : Type) :=
| PayloadNull
| PayloadValue (field : string -> option J).
Arguments PayloadNull {J}.
Arguments PayloadValue {J} field.

(** [event.data] of a push event: absent, text that is not JSON, or text
    that parses. *)
Inductive PushData (J : Type) :=
| NoData
| NotJson
| Parsed (payload : PushPayload J).
Arguments NoData {J}.
Arguments NotJson {J}.
Arguments Parsed {J} payload.

(** The second argument of [showNotification]. *)
Record NotificationOptions (J : Type) := mkOptions {
  opt_body : OrElse J string;
  opt_icon : string;
  opt_badge : string;
  opt_tag : OrElse J string;
  opt_data : OrElse J unit;
  opt_actions : list (string * string)
}.
Arguments mkOptions {J}.
Arguments opt_body {J}.
Arguments opt_icon {J}.
Arguments opt_badge {J}.
Arguments opt_tag {J}.
Arguments opt_data {J}.
Arguments opt_actions {J}.

Inductive PushFailure := SyntaxError | PropertyOfNull.

(** How the push listener ends: it returns without showing anything, it
    throws, or it calls [showNotification]. *)
Inductive PushResult (J : Type) :=
| Ignored
| Threw (why : PushFailure)
| Shown (title : OrElse J string) (options : NotificationOptions J).
Arguments Ignored {J}.
Arguments Threw {J} why.
Arguments Shown {J} title options.

Section Push.

(** The values of the payload and JavaScript's truthiness on them. *)
Variable J : Type.
Variable truthy : J -> bool.

(** [value || fallback] *)
Definition or_else {D} (value : option J) (fallback : D) : OrElse J D :=
  match value with
  | Some v => if truthy v then FromPayload v else Fallback fallback
  | None => Fallback fallback
  end.

(** The push listener. *)
Definition push_listener (data : PushData J) : PushResult J :=
  match data with
  | NoData => Ignored
  | NotJson => Threw SyntaxError
  | Parsed PayloadNull => Threw PropertyOfNull
  | Parsed (PayloadValue field) =>
      let options :=
        mkOptions
          (or_else (field "body") "New notification from Nabha Vidya")
          "/assets/icons/icon-192.png"
          "/assets/icons/icon-192.png"
          (or_else (field "tag") "nabha-notification")
          (or_else (field "data") tt)
          [("open", "Open App"); ("dismiss", "Dismiss")] in
      Shown (or_else (field "title") "Nabha Vidya") options
  end.

End Push.

(** What the notificationclick listener does, in order. *)
Inductive ClickEffect :=
| CloseNotification
| OpenWindow (path : string).

(** The notificationclick listener; [action] is [event.action], the empty
    string when the notification itself was clicked. *)
Definition notificationclick_listener (action : string) : list ClickEffect :=
  CloseNotification ::
  (if String.eqb action "open" || String.eqb action ""
   then [OpenWindow "/"]
   else []).

(** ** The fetch handler of the first worker (sw.js) *)

Module SwV1.

(** The platform stores and matches only GET requests over http or https:
    [cache.put] rejects for any other request and [caches.match] finds
    nothing for a request that is not a GET. *)
Definition cacheable (request : Request) : bool :=
  String.eqb (method request) "GET" &&
  (String.eqb (protocol (url request)) "http:" ||
   String.eqb (protocol (url request)) "https:").

(** [caches.match(event.request)] *)
Definition match_request (request : Request) : M (option Response) :=
  if String.eqb (method request) "GET"
  then caches_match (url request)
  else ret None.

(** [cache.put(event.request, networkRes.clone())], not awaited: a put the
    platform rejects is a rejection nobody sees. *)
Definition put_unawaited (cache : string) (request : Request) (r : Response)
  : M unit :=
  if cacheable request then spawn (Put cache (url request) r) else ret tt.

Section Worker.

Variable self_location : URL.

(** The promise the fetch listener responds with; it is given every
    request, whatever its method. *)
Definition fetch_handler (request : Request) : M Value :=
  cachedRes <- match_request request ;;
  match cachedRes with
  | Some hit => ret (VResponse hit)
  | None =>
      try_catch
        (networkRes <- fetch (FetchRequest request) ;;
         cache <- caches_open Legacy.CACHE_NAME ;;
         put_unawaited cache request networkRes ;;;
         ret (VResponse networkRes))
        (fun _ =>
           match mode request with
           | Navigate =>
               document <- caches_match (resolve self_location "/index.html") ;;
               ret (match document with
                    | Some d => VResponse d
                    | None => VUndefined
                    end)
           | _ => ret VUndefined
           end)
  end.

End Worker.

End SwV1.

(** ** Helpers for stating the further properties *)

(** The partition the strategy chosen for a path reads and writes. *)
Definition strategy_partition (p : string) : string :=
  if isStaticAsset p then STATIC_CACHE else DYNAMIC_CACHE.

(** A network whose first answer is a fresh copy and which is down
    afterwards. *)
Definition flaky_network : nat -> FetchCall -> FetchOutcome :=
  fun n _ =>
    match n with
    | O => Resolved (ok_response "fresh")
    | S _ => Rejected failed_fetch
    end.

(** Cache storage after the promises of a manifest have run, the first of
    them issuing the [n]-th fetch: each asset whose fetch resolves with an
    ok response the cache accepts is put under its resolved URL. *)
Fixpoint preloaded (self_location : URL) (cache : string)
  (net : nat -> FetchCall -> FetchOutcome) (n : nat) (assets : list string)
  (cs : list (string * gmap URL Response)) : list (string * gmap URL Response) :=
  match assets with
  | [] => cs
  | a :: rest =>
      preloaded self_location cache net (S n) rest
        (match net n (FetchGetNoCache a) with
         | Resolved r =>
             if ok r && storable r
             then storage_put cs cache (resolve self_location a) r
             else cs
         | Rejected _ => cs
         end)
  end.

(** * Properties *)

(** ** Strings *)

Lemma startsWith_spec (s p : string) :
  startsWith s p = true <-> exists r, s = p +:+ r.
Proof.
  revert s. induction p as [|a p IH]; intros s; simpl.
  - split; [intros _; exists s; reflexivity | reflexivity].
  - destruct s as [|b r]; simpl.
    + split; [discriminate | intros [r' H]; discriminate].
    + rewrite andb_true_iff, Ascii.eqb_eq, IH. split.
      * intros [-> [r' ->]]. exists r'. reflexivity.
      * intros [r' H]. injection H as -> ->. split; [reflexivity | eauto].
Qed.

Lemma endsWith_spec (s suffix : string) :
  endsWith s suffix = true <-> exists stem, s = stem +:+ suffix.
Proof.
  induction s as [|a r IH].
  - change (endsWith "" suffix) with (String.eqb "" suffix || false).
    rewrite orb_false_r, String.eqb_eq. split.
    + intros <-. exists "". reflexivity.
    + intros [[|b stem] H]; simpl in H; [exact H | discriminate].
  - change (endsWith (String a r) suffix)
      with (String.eqb (String a r) suffix || endsWith r suffix).
    rewrite orb_true_iff, String.eqb_eq, IH. split.
    + intros [<- | [stem ->]].
      * exists "". reflexivity.
      * exists (String a stem). reflexivity.
    + intros [[|b stem] H]; simpl in H.
      * left. exact H.
      * injection H as -> ->. right. eauto.
Qed.

Lemma includes_spec (s needle : string) :
  includes s needle = true <-> exists before after, s = before +:+ needle +:+ after.
Proof.
  induction s as [|a r IH]; simpl.
  - rewrite orb_false_r, startsWith_spec. split.
    + intros [after H]. exists "", after. exact H.
    + intros [[|b before] [after H]]; simpl in H; [eauto | discriminate].
  - rewrite orb_true_iff, startsWith_spec, IH. split.
    + intros [[after H] | [before [after ->]]].
      * exists "", after. exact H.
      * exists (String a before), after. reflexivity.
    + intros [[|b before] [after H]]; simpl in H.
      * left. eauto.
      * injection H as -> ->. right. eauto.
Qed.

Lemma static_regex_at_spec (s : string) :
  static_regex_at s = true <-> exists e, In e STATIC_EXTENSIONS /\ s = "." +:+ e.
Proof.
  destruct s as [|c rest]; unfold static_regex_at.
  - split; [discriminate | intros [e [_ H]]; discriminate].
  - rewrite andb_true_iff, Ascii.eqb_eq, existsb_exists. split.
    + intros [-> [e [Hin He]]]. apply String.eqb_eq in He. subst e.
      exists rest. split; [exact Hin | reflexivity].
    + intros [e [Hin H]]. injection H as -> ->.
      split; [reflexivity | exists e; split; [exact Hin | apply String.eqb_refl]].
Qed.

Lemma static_regex_match_spec (s : string) :
  static_regex_match s = true <->
  exists stem e, In e STATIC_EXTENSIONS /\ s = stem +:+ "." +:+ e.
Proof.
  induction s as [|a r IH].
  - simpl. split; [discriminate |].
    intros [[|b stem] [e [_ H]]]; discriminate.
  - cbn [static_regex_match]. rewrite orb_true_iff, static_regex_at_spec, IH. split.
    + intros [[e [Hin H]] | [stem [e [Hin ->]]]].
      * exists "", e. split; [exact Hin | exact H].
      * exists (String a stem), e. split; [exact Hin | reflexivity].
    + intros [[|b stem] [e [Hin H]]].
      * left. exists e. split; [exact Hin | exact H].
      * simpl in H. injection H as -> ->. right. exists stem, e. split; [exact Hin | reflexivity].
Qed.

(** ** Classification *)

Lemma isStaticAsset_spec (p : string) :
  isStaticAsset p = true <-> static_pattern p.
Proof.
  unfold isStaticAsset, static_pattern.
  rewrite !orb_true_iff, static_regex_match_spec, String.eqb_eq, endsWith_spec.
  change spec_static_extensions with STATIC_EXTENSIONS. tauto.
Qed.

Lemma isDynamicAsset_spec (p : string) :
  isDynamicAsset p = true <-> dynamic_pattern p.
Proof.
  unfold isDynamicAsset, dynamic_pattern.
  rewrite !orb_true_iff, startsWith_spec, !includes_spec. tauto.
Qed.

Lemma api_prefix_is_dynamic (p : string) :
  startsWith p "/api/" = true -> isDynamicAsset p = true.
Proof.
  intros [rest ->]%startsWith_spec. apply isDynamicAsset_spec.
  right; left. exists "/", ("/" +:+ rest). reflexivity.
Qed.

Lemma classify_never_api (p : string) : classify p <> Api.
Proof.
  unfold classify.
  destruct (isStaticAsset p); [discriminate |].
  destruct (isDynamicAsset p) eqn:Hdyn; [discriminate |].
  destruct (startsWith p "/api/") eqn:Hapi; [| discriminate].
  apply api_prefix_is_dynamic in Hapi. congruence.
Qed.

Lemma dispatch_execute (request : Request) :
  dispatch request = execute (classify (pathname (url request))) request.
Proof.
  unfold dispatch, classify.
  destruct (isStaticAsset _); [reflexivity |].
  destruct (isDynamicAsset _); [reflexivity |].
  destruct (startsWith _ _); reflexivity.
Qed.

(** C1: the strategy [handleFetch] runs depends on the request only
    through the class of its URL path, and that class is decided first
    match wins in the order static, dynamic, api, default, each test being
    the one the specification words: static extension or root or .html;
    else the video prefix or the substrings api or user-content; else the
    /api/ prefix; else default. *)
Theorem classification_first_match_wins :
  (forall p, classify p = Static <-> static_pattern p) /\
  (forall p, classify p = Dynamic <-> ~ static_pattern p /\ dynamic_pattern p) /\
  (forall p, classify p = Api <->
             ~ static_pattern p /\ ~ dynamic_pattern p /\ api_pattern p) /\
  (forall p, classify p = Default <->
             ~ static_pattern p /\ ~ dynamic_pattern p /\ ~ api_pattern p) /\
  (forall self_location request,
     handleFetch self_location request =
     try_catch
       (execute (classify (pathname (url request))) request)
       (fun error =>
          console_log (LogFetchError error) ;;;
          fmapM VResponse (handleOfflineFallback self_location request))).
Proof.
  assert (Hapi : forall p, startsWith p "/api/" = true <-> api_pattern p)
    by (intros p; apply startsWith_spec).
  repeat split; try (intros p; unfold classify;
    rewrite <- ?isStaticAsset_spec, <- ?isDynamicAsset_spec, <- ?Hapi;
    destruct (isStaticAsset p), (isDynamicAsset p), (startsWith p "/api/");
    intuition congruence).
  all: try (intros; unfold handleFetch; rewrite dispatch_execute; reflexivity).
  all: unfold classify in *;
    rewrite <- ?isStaticAsset_spec, <- ?isDynamicAsset_spec, <- ?Hapi in *;
    destruct (isStaticAsset p), (isDynamicAsset p), (startsWith p "/api/");
    intuition congruence.
Qed.

(** ** Cache storage *)

Lemma storage_get_app cs extra name :
  storage_get (cs ++ extra) name =
  match storage_get cs name with
  | Some c => Some c
  | None => storage_get extra name
  end.
Proof.
  induction cs as [|[n c] cs IH]; simpl; [reflexivity |].
  destruct (String.eqb n name); [reflexivity | exact IH].
Qed.

Lemma storage_get_open cs name other :
  storage_get (storage_open cs name) other =
  match storage_get cs other with
  | Some c => Some c
  | None => if String.eqb name other
            then match storage_get cs name with Some _ => None | None => Some ∅ end
            else None
  end.
Proof.
  unfold storage_open. destruct (storage_get cs name) eqn:Hn.
  - destruct (storage_get cs other) eqn:Ho; [reflexivity |].
    destruct (String.eqb name other); reflexivity.
  - rewrite storage_get_app. destruct (storage_get cs other); [reflexivity |].
    simpl. destruct (String.eqb name other); reflexivity.
Qed.

Lemma storage_get_open_same cs name :
  exists c, storage_get (storage_open cs name) name = Some c.
Proof.
  rewrite storage_get_open, String.eqb_refl.
  destruct (storage_get cs name); eauto.
Qed.

Lemma lookup_in_open cs name other key :
  lookup_in (storage_open cs name) other key = lookup_in cs other key.
Proof.
  unfold lookup_in. rewrite storage_get_open.
  destruct (storage_get cs other) eqn:Ho; [reflexivity |].
  destruct (String.eqb name other) eqn:E; [| reflexivity].
  apply String.eqb_eq in E. subst other. rewrite Ho. apply lookup_empty.
Qed.

Lemma storage_get_put cs name key r other :
  storage_get (storage_put cs name key r) other =
  if String.eqb name other
  then (fun c => <[key := r]> c) <$> storage_get cs name
  else storage_get cs other.
Proof.
  induction cs as [|[n c] cs IH]; simpl.
  - destruct (String.eqb name other); reflexivity.
  - destruct (String.eqb n name) eqn:E; simpl.
    + apply String.eqb_eq in E. subst n.
      destruct (String.eqb name other); reflexivity.
    + rewrite IH. destruct (String.eqb name other) eqn:E2; [| reflexivity].
      apply String.eqb_eq in E2. subst other. rewrite E. reflexivity.
Qed.

Lemma lookup_in_put_same cs name key r c :
  storage_get cs name = Some c ->
  lookup_in (storage_put cs name key r) name key = Some r.
Proof.
  intros H. unfold lookup_in. rewrite storage_get_put, String.eqb_refl, H. simpl.
  apply lookup_insert_eq.
Qed.

Lemma lookup_in_put cs name key r other key' :
  lookup_in (storage_put cs name key r) other key' = lookup_in cs other key' \/
  (other = name /\ key' = key /\
   lookup_in (storage_put cs name key r) other key' = Some r).
Proof.
  unfold lookup_in. rewrite storage_get_put.
  destruct (String.eqb name other) eqn:E; [| left; reflexivity].
  apply String.eqb_eq in E. subst other.
  destruct (storage_get cs name) as [c|]; simpl; [| left; reflexivity].
  destruct (decide (key = key')) as [->|Hne].
  - right. rewrite lookup_insert_eq. auto.
  - left. apply lookup_insert_ne. exact Hne.
Qed.

Lemma lookup_in_put_other cs name key r other key' :
  (other, key') <> (name, key) ->
  lookup_in (storage_put cs name key r) other key' = lookup_in cs other key'.
Proof.
  intros Hne. destruct (lookup_in_put cs name key r other key') as [H | (-> & -> & _)];
    [exact H | congruence].
Qed.

Lemma storage_open_existing cs name key r :
  lookup_in cs name key = Some r -> storage_open cs name = cs.
Proof.
  unfold lookup_in, storage_open.
  destruct (storage_get cs name); [reflexivity | discriminate].
Qed.

(** ** The strategies, step by step *)

Ltac unfold_monad :=
  unfold fmapM, fetch, fetch_start, await_fetch, bind, try_catch, ret, throw,
    console_log, spawn, caches_open, cache_match, cache_put, caches_match,
    caches_keys, caches_delete in *.

Lemma cacheFirst_run request cacheName s :
  cacheFirst request cacheName s =
  let opened := with_caches (storage_open (caches s) cacheName) s in
  match lookup_in (caches s) cacheName (url request) with
  | Some hit =>
      (Ok hit, with_console (console s ++ [LogCacheHit (url request)]) opened)
  | None =>
      let asked :=
        with_fetched (fetched s ++ [FetchRequest request])
          (with_console (console s ++ [LogNetworkFetch (url request)]) opened) in
      match network s (length (fetched s)) (FetchRequest request) with
      | Resolved r =>
          if ok r
          then if storable r
               then (Ok r,
                     with_caches
                       (storage_put (storage_open (caches s) cacheName)
                          cacheName (url request) r) asked)
               else (Throw put_rejected, asked)
          else (Ok r, asked)
      | Rejected e => (Throw e, asked)
      end
  end.
Proof.
  unfold cacheFirst. unfold_monad. simpl.
  rewrite lookup_in_open.
  destruct (lookup_in (caches s) cacheName (url request)); [reflexivity |].
  simpl. destruct (network s _ _) as [r|e]; [| reflexivity].
  destruct (ok r); [| reflexivity]. destruct (storable r); reflexivity.
Qed.

Lemma networkFirst_run request cacheName s :
  networkFirst request cacheName s =
  let asked :=
    with_fetched (fetched s ++ [FetchRequest request])
      (with_console (console s ++ [LogNetworkFirst (url request)])
         (with_caches (storage_open (caches s) cacheName) s)) in
  let failed :=
    with_console
      (console s ++ [LogNetworkFirst (url request)] ++
         [LogNetworkFailed (url request)]) asked in
  let from_cache error :=
    match lookup_in (caches s) cacheName (url request) with
    | Some hit => (Ok hit, failed)
    | None => (Throw error, failed)
    end in
  match network s (length (fetched s)) (FetchRequest request) with
  | Resolved r =>
      if ok r
      then if storable r
           then (Ok r,
                 with_caches
                   (storage_put (storage_open (caches s) cacheName)
                      cacheName (url request) r) asked)
           else from_cache put_rejected
      else (Ok r, asked)
  | Rejected e => from_cache e
  end.
Proof.
  unfold networkFirst. unfold_monad. simpl.
  destruct (network s _ _) as [r|e]; simpl.
  - destruct (ok r); [| reflexivity]. destruct (storable r); simpl; [reflexivity |].
    rewrite lookup_in_open, <- app_assoc.
    destruct (lookup_in (caches s) cacheName (url request)); reflexivity.
  - rewrite lookup_in_open, <- app_assoc.
    destruct (lookup_in (caches s) cacheName (url request)); reflexivity.
Qed.

Lemma staleWhileRevalidate_run request cacheName s :
  staleWhileRevalidate request cacheName s =
  let outcome := network s (length (fetched s)) (FetchRequest request) in
  let asked :=
    with_fetched (fetched s ++ [FetchRequest request])
      (with_caches (storage_open (caches s) cacheName) s) in
  match lookup_in (caches s) cacheName (url request) with
  | Some hit =>
      (Ok (VResponse hit),
       with_console (console s ++ [LogStale (url request)])
         (with_pending (pending s ++ [Revalidate cacheName request outcome]) asked))
  | None =>
      revalidation cacheName request outcome
        (with_console (console s ++ [LogFresh (url request)]) asked)
  end.
Proof.
  unfold staleWhileRevalidate. unfold_monad. simpl.
  rewrite lookup_in_open.
  destruct (lookup_in (caches s) cacheName (url request)); reflexivity.
Qed.





(** ** Offline fallback *)

Lemma storage_match_app cs extra key :
  storage_match (cs ++ extra) key =
  match storage_match cs key with
  | Some r => Some r
  | None => storage_match extra key
  end.
Proof.
  induction cs as [|[n c] cs IH]; simpl; [reflexivity |].
  destruct (c !! key); [reflexivity | exact IH].
Qed.

Lemma storage_match_open cs name key :
  storage_match (storage_open cs name) key = storage_match cs key.
Proof.
  unfold storage_open. destruct (storage_get cs name); [reflexivity |].
  rewrite storage_match_app. simpl. rewrite lookup_empty.
  destruct (storage_match cs key); reflexivity.
Qed.

Lemma storage_match_Some cs key hit :
  storage_match cs key = Some hit ->
  exists name c, In (name, c) cs /\ c !! key = Some hit.
Proof.
  induction cs as [|[n c] cs IH]; simpl; [discriminate |].
  destruct (c !! key) as [r|] eqn:Hc.
  - intros [= <-]. exists n, c. auto.
  - intros H. destruct (IH H) as (name & c' & Hin & Hk). exists name, c'. auto.
Qed.

Lemma storage_match_None cs key :
  storage_match cs key = None <->
  forall name c, In (name, c) cs -> c !! key = None.
Proof.
  induction cs as [|[n c] cs IH]; simpl.
  - split; [intros _ name c [] | reflexivity].
  - destruct (c !! key) as [r|] eqn:Hc.
    + split; [discriminate |]. intros H.
      specialize (H n c (or_introl eq_refl)). congruence.
    + rewrite IH. split.
      * intros H name c' [[= <- <-] | Hin]; [exact Hc | eapply H; exact Hin].
      * intros H name c' Hin. eapply H. right. exact Hin.
Qed.

Lemma handleOfflineFallback_run self_location request s :
  exists s',
    handleOfflineFallback self_location request s =
    (Ok (fallback_choice self_location request s), s') /\
    fetched s' = fetched s /\
    forall name key, partition_get name key s' = partition_get name key s.
Proof.
  unfold handleOfflineFallback, fallback_choice, partition_get. unfold_monad.
  destruct (mode request); simpl.
  1: rewrite lookup_in_open;
     destruct (lookup_in (caches s) STATIC_CACHE _);
     [| cbn [caches with_caches]; rewrite storage_match_open].
  all: try destruct (storage_match (caches s) (url request)).
  all: eexists; (split; [reflexivity |]); simpl; split; try reflexivity.
  all: intros; rewrite ?lookup_in_open; reflexivity.
Qed.

Lemma fmapM_run {A B} (f : A -> B) (m : M A) s :
  fmapM f m s =
  match m s with
  | (Ok a, s') => (Ok (f a), s')
  | (Throw e, s') => (Throw e, s')
  end.
Proof. unfold fmapM, bind, ret. destruct (m s) as [[a|e] s']; reflexivity. Qed.

Lemma dispatch_strategy request :
  dispatch request = fmapM VResponse (cacheFirst request STATIC_CACHE) \/
  dispatch request = fmapM VResponse (networkFirst request DYNAMIC_CACHE).
Proof.
  rewrite dispatch_execute.
  destruct (classify (pathname (url request))) eqn:Hc; simpl; auto.
  exfalso. eapply classify_never_api. exact Hc.
Qed.

Lemma dispatch_resolves_to_response request s v s' :
  dispatch request s = (Ok v, s') -> exists r, v = VResponse r.
Proof.
  destruct (dispatch_strategy request) as [-> | ->]; rewrite fmapM_run.
  - destruct (cacheFirst request STATIC_CACHE s) as [[a|e] s1]; intros [= <- <-]; eauto.
  - destruct (networkFirst request DYNAMIC_CACHE s) as [[a|e] s1]; intros [= <- <-]; eauto.
Qed.

(** C5: [handleFetch] always resolves to a response object and never
    rejects.  An error thrown by the selected strategy is caught and
    answered by the offline fallback, which itself never throws: a
    navigation request gets the index document cached in the static
    partition when there is one; otherwise the first match over all
    partitions; otherwise the synthesized 503 response with the JSON body
    that starts with the member error: Offline. *)
Theorem handleFetch_always_responds :
  (forall self_location request s,
     exists r s', handleFetch self_location request s = (Ok (VResponse r), s')) /\
  (forall self_location request s e s1,
     dispatch request s = (Throw e, s1) ->
     exists s',
       handleFetch self_location request s =
       (Ok (VResponse
              (fallback_choice self_location request
                 (with_console (console s1 ++ [LogFetchError e]) s1))), s')) /\
  (forall self_location request s,
     exists r s',
       handleOfflineFallback self_location request s = (Ok r, s') /\
       (forall document,
          mode request = Navigate ->
          partition_get STATIC_CACHE (resolve self_location "/index.html") s
            = Some document ->
          r = document) /\
       (mode request <> Navigate \/
        partition_get STATIC_CACHE (resolve self_location "/index.html") s = None ->
        (forall hit, storage_match (caches s) (url request) = Some hit -> r = hit) /\
        (storage_match (caches s) (url request) = None -> r = offline_response))) /\
  status offline_response = 503%Z /\
  (exists rest,
     body offline_response =
     "{" +:+ json_string "error" +:+ ":" +:+ json_string "Offline" +:+ rest).
Proof.
  split; [| split; [| split; [| split]]].
  - intros loc request s. unfold handleFetch, try_catch.
    destruct (dispatch request s) as [[v|e] s1] eqn:Hd.
    + destruct (dispatch_resolves_to_response _ _ _ _ Hd) as [r ->]. eauto.
    + unfold bind at 1. unfold console_log at 1. rewrite fmapM_run.
      destruct (handleOfflineFallback_run loc request
                  (with_console (console s1 ++ [LogFetchError e]) s1))
        as (s' & -> & _). eauto.
  - intros loc request s e s1 Hd. unfold handleFetch, try_catch. rewrite Hd.
    unfold bind at 1. unfold console_log at 1. rewrite fmapM_run.
    destruct (handleOfflineFallback_run loc request
                (with_console (console s1 ++ [LogFetchError e]) s1))
      as (s' & -> & _). eauto.
  - intros loc request s.
    destruct (handleOfflineFallback_run loc request s) as (s' & Hrun & _).
    exists (fallback_choice loc request s), s'. split; [exact Hrun |].
    unfold fallback_choice. split.
    + intros document -> ->. reflexivity.
    + intros Hno.
      assert (Hdoc :
        match mode request with
        | Navigate => partition_get STATIC_CACHE (resolve loc "/index.html") s
        | _ => None
        end = None).
      { destruct Hno as [Hm | Hn]; [destruct (mode request); congruence |].
        destruct (mode request); auto. }
      rewrite Hdoc. split.
      * intros hit ->. reflexivity.
      * intros ->. reflexivity.
  - reflexivity.
  - eexists. reflexivity.
Qed.

(** ** Activation: cleanup of old partitions *)

Lemma filter_twice {A} (f g : A -> bool) (l : list A) :
  List.filter f (List.filter g l) = List.filter (fun x => g x && f x) l.
Proof.
  induction l as [|x l IH]; simpl; [reflexivity |].
  destruct (g x); simpl; [destruct (f x) |]; rewrite IH; reflexivity.
Qed.

Lemma storage_get_filter (doomed : string -> bool) cs name :
  storage_get (List.filter (fun nc => negb (doomed (fst nc))) cs) name =
  if doomed name then None else storage_get cs name.
Proof.
  induction cs as [|[n c] cs IH]; simpl.
  - destruct (doomed name); reflexivity.
  - destruct (doomed n) eqn:Hd; simpl.
    + rewrite IH. destruct (String.eqb n name) eqn:E; [| reflexivity].
      apply String.eqb_eq in E. subst n. rewrite Hd. reflexivity.
    + rewrite IH. destruct (String.eqb n name) eqn:E; [| reflexivity].
      apply String.eqb_eq in E. subst n. rewrite Hd. reflexivity.
Qed.

Lemma allSettled_deletes (remove : string -> M bool) names :
  (forall name s,
     exists b s',
       remove name s = (Ok b, s') /\
       fetched s' = fetched s /\
       caches s' = storage_delete (caches s) name) ->
  forall s,
    exists rs s',
      allSettled (map remove names) s = (Ok rs, s') /\
      first_rejection rs = None /\
      fetched s' = fetched s /\
      caches s' =
      List.filter (fun nc => negb (existsb (String.eqb (fst nc)) names)) (caches s).
Proof.
  intros Hremove. induction names as [|n names IH]; intros s.
  - exists [], s. simpl. repeat split; try reflexivity.
    induction (caches s) as [|x l IHl]; simpl; [reflexivity | f_equal; exact IHl].
  - cbn [map allSettled].
    destruct (Hremove n s) as (b & s1 & -> & Hf1 & Hc1).
    destruct (IH s1) as (rs & s' & Hrun & Hrej & Hf & Hc).
    unfold bind, ret. rewrite Hrun.
    eexists _, _. split; [reflexivity |]. simpl.
    split; [exact Hrej |]. split; [congruence |].
    rewrite Hc, Hc1. unfold storage_delete. rewrite filter_twice.
    apply List.filter_ext. intros [m c]. simpl.
    rewrite negb_orb. reflexivity.
Qed.

Lemma delete_logged_run name s :
  exists b s',
    delete_logged name s = (Ok b, s') /\
    fetched s' = fetched s /\
    caches s' = storage_delete (caches s) name.
Proof.
  unfold delete_logged. unfold_monad. simpl.
  eexists _, _. split; [reflexivity |]. simpl. auto.
Qed.

Lemma caches_delete_run name s :
  exists b s',
    caches_delete name s = (Ok b, s') /\
    fetched s' = fetched s /\
    caches s' = storage_delete (caches s) name.
Proof.
  unfold caches_delete. eexists _, _. split; [reflexivity |]. simpl. auto.
Qed.

Lemma deleted_names_filter (old : string -> bool)
  (cs : list (string * gmap URL Response)) :
  List.filter
    (fun nc => negb (existsb (String.eqb (fst nc))
                       (List.filter old (map fst cs)))) cs =
  List.filter (fun nc => negb (old (fst nc))) cs.
Proof.
  apply List.filter_ext_in. intros [n c] Hin. simpl. f_equal.
  destruct (old n) eqn:Hold.
  - apply existsb_exists. exists n. split; [| apply String.eqb_refl].
    apply List.filter_In. split; [| exact Hold].
    apply List.in_map_iff. exists (n, c). auto.
  - destruct (existsb _ _) eqn:Hex; [| reflexivity].
    apply existsb_exists in Hex. destruct Hex as (m & Hm & E).
    apply String.eqb_eq in E. subst m.
    apply List.filter_In in Hm. destruct Hm as [_ Hm]. congruence.
Qed.

Lemma is_old_cache_spec (name : string) :
  is_old_cache name = true <->
  name <> STATIC_CACHE /\ name <> DYNAMIC_CACHE /\
  exists rest, name = "nabha-" +:+ rest.
Proof.
  unfold is_old_cache.
  rewrite !andb_true_iff, !negb_true_iff, !String.eqb_neq, startsWith_spec. tauto.
Qed.

Lemma activate_run s :
  exists s',
    activate s = (Ok tt, s') /\
    fetched s' = fetched s /\
    caches s' = List.filter (fun nc => negb (is_old_cache (fst nc))) (caches s).
Proof.
  unfold activate, promise_all. unfold bind at 1 2. unfold console_log at 1.
  unfold caches_keys at 1. cbn [caches with_console].
  destruct (allSettled_deletes delete_logged
              (List.filter is_old_cache (map fst (caches s)))
              delete_logged_run
              (with_console (console s ++ [LogActivating]) s))
    as (rs & s' & Hrun & Hrej & Hf & Hc).
  unfold bind at 1. unfold bind at 1.
  rewrite Hrun, Hrej. unfold ret. eexists. split; [reflexivity |].
  split; [exact Hf |]. rewrite Hc. cbn [caches with_console].
  apply deleted_names_filter.
Qed.

(** The activate handler of the first worker (sw.js) has no prefix test:
    it keeps the partition named vidya-cache-v1 and deletes every other
    one, whoever owns it. *)
Lemma legacy_activate_run s :
  exists s',
    Legacy.activate s = (Ok tt, s') /\
    caches s' =
    List.filter (fun nc => String.eqb (fst nc) Legacy.CACHE_NAME) (caches s).
Proof.
  unfold Legacy.activate, promise_all. unfold bind at 1.
  unfold caches_keys at 1.
  destruct (allSettled_deletes caches_delete
              (List.filter Legacy.is_other_cache (map fst (caches s)))
              caches_delete_run s)
    as (rs & s' & Hrun & Hrej & Hf & Hc).
  unfold bind at 1. unfold bind at 1.
  rewrite Hrun, Hrej. unfold ret. eexists. split; [reflexivity |].
  rewrite Hc, deleted_names_filter.
  apply List.filter_ext. intros [n c]. unfold Legacy.is_other_cache. simpl.
  apply negb_involutive.
Qed.

Example legacy_activate_deletes_foreign_partition :
  map fst
    (caches
       (snd (Legacy.activate
               (mkState [("vidya-cache-v1", ∅); ("other-app-cache", ∅)]
                  offline_network [] [] [] []))))
  = ["vidya-cache-v1"].
Proof. reflexivity. Qed.

Example activate_keeps_foreign_partition :
  map fst
    (caches
       (snd (activate
               (mkState
                  [("nabha-static-v1.0", ∅); ("nabha-static-v2.0", ∅);
                   ("other-app-cache", ∅); ("nabha-dynamic-v2.0", ∅);
                   ("nabha-vidya-v2.0", ∅)]
                  offline_network [] [] [] []))))
  = ["nabha-static-v2.0"; "other-app-cache"; "nabha-dynamic-v2.0"].
Proof. reflexivity. Qed.

(** C6: after activation the partitions that are gone are exactly the
    existing ones whose name is neither of the two current names and
    begins with nabha-; every other partition, in particular every one
    with a foreign prefix, is still there with the same content, in the
    same order. *)
Theorem activate_cleanup :
  forall s,
    exists s',
      activate s = (Ok tt, s') /\
      (forall name,
         In name (map fst (caches s)) ->
         (~ In name (map fst (caches s')) <->
          name <> "nabha-static-v2.0" /\ name <> "nabha-dynamic-v2.0" /\
          exists rest, name = "nabha-" +:+ rest)) /\
      (forall name, In name (map fst (caches s')) -> In name (map fst (caches s))) /\
      (forall name,
         ~ (name <> "nabha-static-v2.0" /\ name <> "nabha-dynamic-v2.0" /\
            exists rest, name = "nabha-" +:+ rest) ->
         storage_get (caches s') name = storage_get (caches s) name) /\
      (forall name,
         startsWith name "nabha-" = false ->
         storage_get (caches s') name = storage_get (caches s) name).
Proof.
  intros s. destruct (activate_run s) as (s' & Hrun & _ & Hc).
  exists s'. split; [exact Hrun |].
  assert (Hin : forall name,
            In name (map fst (caches s')) <->
            In name (map fst (caches s)) /\ is_old_cache name = false).
  { intros name. rewrite Hc, !List.in_map_iff. split.
    - intros ([n c] & <- & H). apply List.filter_In in H. destruct H as [H Hn].
      simpl in *. apply negb_true_iff in Hn. split; [| exact Hn].
      exists (n, c). auto.
    - intros [([n c] & <- & H) Hn]. exists (n, c). split; [reflexivity |].
      apply List.filter_In. split; [exact H |]. simpl in *. rewrite Hn. reflexivity. }
  assert (Hkeep : forall name,
            is_old_cache name = false ->
            storage_get (caches s') name = storage_get (caches s) name).
  { intros name Hn. rewrite Hc, storage_get_filter, Hn. reflexivity. }
  change "nabha-static-v2.0" with STATIC_CACHE.
  change "nabha-dynamic-v2.0" with DYNAMIC_CACHE.
  split; [| split; [| split]].
  - intros name Hex. rewrite <- is_old_cache_spec, Hin. split.
    + intros Hgone. destruct (is_old_cache name) eqn:Hold; [reflexivity |].
      exfalso. apply Hgone. auto.
    + intros Hold [_ Hf]. congruence.
  - intros name Hn. apply Hin in Hn. tauto.
  - intros name Hn. apply Hkeep.
    destruct (is_old_cache name) eqn:Hold; [| reflexivity].
    exfalso. apply Hn. apply is_old_cache_spec. exact Hold.
  - intros name Hn. apply Hkeep. unfold is_old_cache. rewrite Hn.
    apply andb_false_r.
Qed.

(** ** What gets written into the partitions *)

Lemma only_ok_refl cs : only_ok_written cs cs.
Proof. intros name key r H. left. exact H. Qed.

Lemma only_ok_trans cs1 cs2 cs3 :
  only_ok_written cs1 cs2 -> only_ok_written cs2 cs3 -> only_ok_written cs1 cs3.
Proof.
  intros H12 H23 name key r H.
  destruct (H23 _ _ _ H) as [H2 | Hok]; [| right; exact Hok].
  exact (H12 _ _ _ H2).
Qed.

Lemma only_ok_same cs cs' :
  (forall name key, lookup_in cs' name key = lookup_in cs name key) ->
  only_ok_written cs cs'.
Proof. intros Hsame name key r H. left. rewrite <- Hsame. exact H. Qed.

Lemma only_ok_open cs name : only_ok_written cs (storage_open cs name).
Proof. apply only_ok_same. intros. apply lookup_in_open. Qed.

Lemma only_ok_put cs name key r :
  ok r = true -> only_ok_written cs (storage_put cs name key r).
Proof.
  intros Hok other key' r' H.
  destruct (lookup_in_put cs name key r other key') as [Hsame | (_ & _ & Hnew)].
  - left. rewrite <- Hsame. exact H.
  - right. congruence.
Qed.

Lemma only_ok_open_put cs name key r :
  ok r = true ->
  only_ok_written cs (storage_put (storage_open cs name) name key r).
Proof.
  intros Hok. eapply only_ok_trans; [apply only_ok_open | apply only_ok_put, Hok].
Qed.

Lemma safeCacheAdd_run self_location cache input s :
  safeCacheAdd self_location cache input s =
  let asked := with_fetched (fetched s ++ [FetchGetNoCache input]) s in
  match network s (length (fetched s)) (FetchGetNoCache input) with
  | Resolved r =>
      if ok r
      then if storable r
           then (Ok true,
                 with_console (console s ++ [LogCached input])
                   (with_caches
                      (storage_put (caches s) cache
                         (resolve self_location input) r)
                      asked))
           else (Ok false,
                 with_console (console s ++ [LogSkipped input put_rejected])
                   asked)
      else (Ok false,
            with_console
              (console s ++ [LogSkipped input (FailedToFetch input (status r))])
              asked)
  | Rejected e =>
      (Ok false, with_console (console s ++ [LogSkipped input e]) asked)
  end.
Proof.
  unfold safeCacheAdd. unfold_monad. simpl.
  destruct (network s _ _) as [r|e]; [| reflexivity].
  destruct (ok r); [| reflexivity]. destruct (storable r); reflexivity.
Qed.

Lemma safeCacheAdd_never_rejects self_location cache input s :
  exists b s',
    safeCacheAdd self_location cache input s = (Ok b, s') /\
    fetched s' = fetched s ++ [FetchGetNoCache input] /\
    stores_only_ok s s'.
Proof.
  rewrite safeCacheAdd_run. cbv zeta. unfold stores_only_ok.
  destruct (network s _ _) as [r|e];
    [destruct (ok r) eqn:Hok; [destruct (storable r) |] |].
  all: eexists _, _; (split; [reflexivity |]); simpl; split; try reflexivity.
  all: first [apply only_ok_put, Hok | apply only_ok_refl].
Qed.

(** Every promise the preloader hands to [Promise.allSettled] fulfils, so
    the number of fulfilled results is the length of the manifest. *)
Lemma allSettled_safeCacheAdd self_location cache assets s :
  exists rs s',
    allSettled (map (fun asset => safeCacheAdd self_location cache asset) assets) s
      = (Ok rs, s') /\
    length (List.filter is_fulfilled rs) = length assets /\
    fetched s' = fetched s ++ map FetchGetNoCache assets /\
    stores_only_ok s s'.
Proof.
  revert s. induction assets as [|a assets IH]; intros s.
  - exists [], s. simpl. rewrite app_nil_r.
    repeat split; try reflexivity. apply only_ok_refl.
  - cbn [map allSettled].
    destruct (safeCacheAdd_never_rejects self_location cache a s)
      as (b & s1 & -> & Hf1 & Hok1).
    destruct (IH s1) as (rs & s' & Hrun & Hlen & Hf & Hok).
    unfold bind, ret. rewrite Hrun.
    eexists _, _. split; [reflexivity |]. simpl.
    split; [f_equal; exact Hlen |]. split.
    + rewrite Hf, Hf1, <- app_assoc. reflexivity.
    + eapply only_ok_trans; eassumption.
Qed.

Lemma cacheStaticAssetsWhile_run self_location meanwhile assets cache s :
  exists s',
    cacheStaticAssetsWhile self_location meanwhile assets cache s = (Ok tt, s') /\
    (exists logged,
       console s' = logged ++ [LogStaticCached (length assets) (length assets)]) /\
    fetched s' = fetched s ++ map FetchGetNoCache assets /\
    stores_only_ok s s'.
Proof.
  unfold cacheStaticAssetsWhile. unfold bind at 1 2.
  unfold console_log at 1. unfold console_logs.
  destruct (allSettled_safeCacheAdd self_location cache assets
              (with_console
                 (console (with_console (console s ++ [LogCachingStatic]) s)
                    ++ meanwhile)
                 (with_console (console s ++ [LogCachingStatic]) s)))
    as (rs & s1 & Hrun & Hlen & Hf & Hok).
  unfold bind. rewrite Hrun, Hlen. unfold console_log.
  eexists. split; [reflexivity |]. simpl.
  split; [eexists; reflexivity |]. split; [exact Hf | exact Hok].
Qed.

Lemma cacheStaticAssets_run self_location assets cache s :
  exists s',
    cacheStaticAssets self_location assets cache s = (Ok tt, s') /\
    (exists logged,
       console s' = logged ++ [LogStaticCached (length assets) (length assets)]) /\
    fetched s' = fetched s ++ map FetchGetNoCache assets /\
    stores_only_ok s s'.
Proof. apply cacheStaticAssetsWhile_run. Qed.

Lemma install_run self_location s :
  exists s',
    install self_location s = (Ok tt, s') /\
    stores_only_ok s s'.
Proof.
  unfold install. unfold bind at 1 2 3. unfold console_log at 1.
  unfold caches_open at 1 2. cbn [caches with_caches with_console].
  match goal with |- context [cacheStaticAssetsWhile _ _ _ _ ?st] =>
    destruct (cacheStaticAssetsWhile_run self_location [LogDynamicInit]
                STATIC_ASSETS STATIC_CACHE st)
      as (s1 & Hrun & _ & _ & Hok) end.
  rewrite Hrun.
  eexists. split; [reflexivity |].
  unfold stores_only_ok in *. cbn [caches with_caches with_console] in Hok.
  eapply only_ok_trans; [| exact Hok].
  eapply only_ok_trans; apply only_ok_open.
Qed.

(** ** Stale-while-revalidate and its background update *)

Lemma staleWhileRevalidate_settled request cacheName s :
  pending s = [] ->
  let after := snd (staleWhileRevalidate request cacheName s) in
  caches (settle after) =
    revalidated (storage_open (caches s) cacheName) cacheName (url request)
      (network s (length (fetched s)) (FetchRequest request)) /\
  pending (settle after) = [] /\
  fetched (settle after) = fetched s ++ [FetchRequest request].
Proof.
  intros Hp. rewrite staleWhileRevalidate_run. cbv zeta.
  destruct (lookup_in (caches s) cacheName (url request)) as [hit|];
    destruct (network s (length (fetched s)) (FetchRequest request)) as [r|e];
    try (destruct (ok r) eqn:Hok; [destruct (storable r) eqn:Hst |]);
    unfold settle, settle_round, revalidated, revalidation; unfold_monad;
    repeat (simpl; unfold cache_put; rewrite ?Hp, ?Hok, ?Hst); auto.
Qed.

Lemma staleWhileRevalidate_hit request cacheName s hit :
  partition_get cacheName (url request) s = Some hit ->
  exists s',
    staleWhileRevalidate request cacheName s = (Ok (VResponse hit), s') /\
    caches s' = caches s /\
    pending s' =
      pending s ++
      [Revalidate cacheName request
         (network s (length (fetched s)) (FetchRequest request))].
Proof.
  unfold partition_get. intros Hhit. rewrite staleWhileRevalidate_run, Hhit.
  cbv zeta. eexists. split; [reflexivity |]. simpl.
  split; [| reflexivity]. eapply storage_open_existing. exact Hhit.
Qed.

Lemma staleWhileRevalidate_miss request cacheName s :
  partition_get cacheName (url request) s = None ->
  fst (staleWhileRevalidate request cacheName s) =
  match network s (length (fetched s)) (FetchRequest request) with
  | Resolved r => Ok (VResponse r)
  | Rejected _ => Ok VUndefined
  end.
Proof.
  unfold partition_get. intros Hmiss. rewrite staleWhileRevalidate_run, Hmiss.
  cbv zeta. unfold revalidation.
  destruct (network s _ _) as [r|e]; [destruct (ok r) |]; reflexivity.
Qed.

Lemma only_ok_revalidated cs cacheName key outcome :
  only_ok_written cs (revalidated (storage_open cs cacheName) cacheName key outcome).
Proof.
  unfold revalidated.
  destruct outcome as [r|e]; [destruct (ok r) eqn:Hok; destruct (storable r) |].
  all: first [apply only_ok_open_put, Hok | apply only_ok_open].
Qed.

Lemma cacheFirst_stores_only_ok request cacheName s :
  stores_only_ok s (snd (cacheFirst request cacheName s)).
Proof.
  unfold stores_only_ok. rewrite cacheFirst_run. cbv zeta.
  destruct (lookup_in _ _ _); [simpl; apply only_ok_open |].
  destruct (network s _ _) as [r|e];
    [destruct (ok r) eqn:Hok; [destruct (storable r) |] |]; simpl.
  all: first [apply only_ok_open_put, Hok | apply only_ok_open].
Qed.

Lemma networkFirst_stores_only_ok request cacheName s :
  stores_only_ok s (snd (networkFirst request cacheName s)).
Proof.
  unfold stores_only_ok. rewrite networkFirst_run. cbv zeta.
  destruct (network s _ _) as [r|e];
    [destruct (ok r) eqn:Hok; [destruct (storable r) |] |]; simpl.
  all: try destruct (lookup_in _ _ _); simpl.
  all: first [apply only_ok_open_put, Hok | apply only_ok_open].
Qed.

Lemma handleFetch_stores_only_ok self_location request s :
  stores_only_ok s (snd (handleFetch self_location request s)).
Proof.
  unfold handleFetch, try_catch.
  assert (Hd : stores_only_ok s (snd (dispatch request s))).
  { destruct (dispatch_strategy request) as [-> | ->]; rewrite fmapM_run.
    - pose proof (cacheFirst_stores_only_ok request STATIC_CACHE s) as H.
      destruct (cacheFirst request STATIC_CACHE s) as [[a|e] s1]; exact H.
    - pose proof (networkFirst_stores_only_ok request DYNAMIC_CACHE s) as H.
      destruct (networkFirst request DYNAMIC_CACHE s) as [[a|e] s1]; exact H. }
  destruct (dispatch request s) as [[v|e] s1]; [exact Hd |].
  unfold bind at 1. unfold console_log at 1. rewrite fmapM_run.
  destruct (handleOfflineFallback_run self_location request
              (with_console (console s1 ++ [LogFetchError e]) s1))
    as (s' & -> & _ & Hsame).
  simpl in *. unfold stores_only_ok in *.
  eapply only_ok_trans; [exact Hd |]. apply only_ok_same. exact Hsame.
Qed.

(** C10: every entry the worker writes into a partition is an ok (2xx)
    response.  After [safeCacheAdd], the install handler, [cacheFirst],
    [networkFirst], [handleFetch], and [staleWhileRevalidate] with its
    background update settled, each partition entry is one that was there
    before or an ok response; so a storage that holds only ok responses
    keeps holding only ok responses.  A response that is not ok is handed
    to the caller by the three strategies and leaves every partition entry
    as it was; the preloader skips it. *)
Theorem only_ok_responses_are_stored :
  (forall self_location cache input s,
     stores_only_ok s (snd (safeCacheAdd self_location cache input s))) /\
  (forall self_location s, stores_only_ok s (snd (install self_location s))) /\
  (forall request cacheName s,
     stores_only_ok s (snd (cacheFirst request cacheName s))) /\
  (forall request cacheName s,
     stores_only_ok s (snd (networkFirst request cacheName s))) /\
  (forall request cacheName s,
     pending s = [] ->
     stores_only_ok s (settle (snd (staleWhileRevalidate request cacheName s)))) /\
  (forall self_location request s,
     stores_only_ok s (snd (handleFetch self_location request s))) /\
  (forall s s', stores_only_ok s s' -> all_cached_ok s -> all_cached_ok s') /\
  (forall request cacheName s r,
     network s (length (fetched s)) (FetchRequest request) = Resolved r ->
     ok r = false ->
     (partition_get cacheName (url request) s = None ->
      fst (cacheFirst request cacheName s) = Ok r /\
      forall name key,
        partition_get name key (snd (cacheFirst request cacheName s)) =
        partition_get name key s) /\
     (fst (networkFirst request cacheName s) = Ok r /\
      forall name key,
        partition_get name key (snd (networkFirst request cacheName s)) =
        partition_get name key s) /\
     (pending s = [] ->
      (partition_get cacheName (url request) s = None ->
       fst (staleWhileRevalidate request cacheName s) = Ok (VResponse r)) /\
      forall name key,
        partition_get name key
          (settle (snd (staleWhileRevalidate request cacheName s))) =
        partition_get name key s)) /\
  (forall self_location cache input s r,
     network s (length (fetched s)) (FetchGetNoCache input) = Resolved r ->
     ok r = false ->
     fst (safeCacheAdd self_location cache input s) = Ok false /\
     forall name key,
       partition_get name key (snd (safeCacheAdd self_location cache input s)) =
       partition_get name key s).
Proof.
  split; [| split; [| split; [| split; [| split; [| split; [| split; [| split]]]]]]].
  - intros loc cache input s.
    destruct (safeCacheAdd_never_rejects loc cache input s) as (b & s' & -> & _ & H).
    exact H.
  - intros loc s. destruct (install_run loc s) as (s' & -> & H). exact H.
  - apply cacheFirst_stores_only_ok.
  - apply networkFirst_stores_only_ok.
  - intros request cacheName s Hp. unfold stores_only_ok.
    destruct (staleWhileRevalidate_settled request cacheName s Hp) as (-> & _).
    apply only_ok_revalidated.
  - apply handleFetch_stores_only_ok.
  - intros s s' Hw Hall name key r H.
    destruct (Hw name key r H) as [Hold | Hok]; [eapply Hall; exact Hold | exact Hok].
  - intros request cacheName s r Hnet Hok. unfold partition_get. split; [| split].
    + intros Hmiss. rewrite cacheFirst_run, Hmiss, Hnet, Hok. cbv zeta. simpl.
      split; [reflexivity |]. intros. apply lookup_in_open.
    + rewrite networkFirst_run, Hnet, Hok. cbv zeta. simpl.
      split; [reflexivity |]. intros. apply lookup_in_open.
    + intros Hp. split.
      * intros Hmiss.
        rewrite (staleWhileRevalidate_miss request cacheName s Hmiss), Hnet.
        reflexivity.
      * intros name key.
        destruct (staleWhileRevalidate_settled request cacheName s Hp) as (-> & _).
        rewrite Hnet. unfold revalidated. rewrite Hok. apply lookup_in_open.
  - intros loc cache input s r Hnet Hok. unfold partition_get.
    rewrite safeCacheAdd_run, Hnet, Hok. cbv zeta. simpl.
    split; [reflexivity |]. reflexivity.
Qed.

(** C9: a path that starts with /api/ contains api, so [isDynamicAsset]
    holds of it; hence no path is classified api, [handleFetch]'s try
    block is always cache-first on the static partition or network-first on
    the dynamic one and never stale-while-revalidate, and a request under
    /api/ that is not static is served by [networkFirst]. *)
Theorem api_prefix_never_reaches_revalidate :
  (forall rest, isDynamicAsset ("/api/" +:+ rest) = true) /\
  (forall p, startsWith p "/api/" = true -> isDynamicAsset p = true) /\
  (forall p, classify p <> Api) /\
  (forall request,
     dispatch request = fmapM VResponse (cacheFirst request STATIC_CACHE) \/
     dispatch request = fmapM VResponse (networkFirst request DYNAMIC_CACHE)) /\
  (forall self_location request,
     startsWith (pathname (url request)) "/api/" = true ->
     isStaticAsset (pathname (url request)) = false ->
     handleFetch self_location request =
     try_catch
       (fmapM VResponse (networkFirst request DYNAMIC_CACHE))
       (fun error =>
          console_log (LogFetchError error) ;;;
          fmapM VResponse (handleOfflineFallback self_location request))).
Proof.
  split; [| split; [| split; [| split]]].
  - intros rest. apply api_prefix_is_dynamic. apply startsWith_spec. eauto.
  - exact api_prefix_is_dynamic.
  - exact classify_never_api.
  - exact dispatch_strategy.
  - intros loc request Hapi Hstatic. unfold handleFetch, dispatch.
    rewrite Hstatic, (api_prefix_is_dynamic _ Hapi). reflexivity.
Qed.

(** ** Background sync *)





(** ** The strategies on concrete worlds *)

Example classify_root : classify "/" = Static.
Proof. reflexivity. Qed.

Example classify_font : classify "/fonts/a.woff2" = Static.
Proof. reflexivity. Qed.

Example classify_api_script : classify "/api/widget.js" = Static.
Proof. reflexivity. Qed.

Example classify_video : classify "/assets/videos/x.mp4" = Dynamic.
Proof. reflexivity. Qed.

Example classify_api_feedback : classify "/api/feedback" = Dynamic.
Proof. reflexivity. Qed.

Example classify_apiary : classify "/apiary/" = Dynamic.
Proof. reflexivity. Qed.

Example classify_about : classify "/about" = Default.
Proof. reflexivity. Qed.

(** The scenario of the specification: a video request, network down,
    nothing cached.  A navigation gets the 503 response too when the index
    document is not cached, and the index document when it is. *)
Example video_offline_not_cached :
  fst (handleFetch example_location
         (mkRequest "GET" (example_url "/assets/videos/x.mp4") NoCors)
         (empty_world offline_network))
  = Ok (VResponse offline_response).
Proof. reflexivity. Qed.

Example video_offline_navigation :
  fst (handleFetch example_location
         (mkRequest "GET" (example_url "/assets/videos/x.mp4") Navigate)
         (mkState
            [(STATIC_CACHE, {[ example_url "/index.html" := ok_response "index" ]})]
            offline_network [] [] [] []))
  = Ok (VResponse (ok_response "index")).
Proof. vm_compute. reflexivity. Qed.

Example cacheFirst_miss_then_hit :
  let request := get_request "/styles.css" in
  let first := cacheFirst request STATIC_CACHE (empty_world site_network) in
  let second := cacheFirst request STATIC_CACHE (snd first) in
  fst first = Ok (ok_response "css") /\
  partition_get STATIC_CACHE (url request) (snd first) = Some (ok_response "css") /\
  fetched (snd first) = [FetchRequest request] /\
  fst second = Ok (ok_response "css") /\
  fetched (snd second) = [FetchRequest request].
Proof. vm_compute. repeat split. Qed.

Example cacheFirst_not_found_is_not_stored :
  let request := get_request "/missing.css" in
  let first := cacheFirst request STATIC_CACHE (empty_world site_network) in
  fst first = Ok (mkResponse 404 "Not Found" [] "") /\
  partition_get STATIC_CACHE (url request) (snd first) = None.
Proof. vm_compute. repeat split. Qed.

Example networkFirst_overwrites_stale_entry :
  let request := get_request "/lessons" in
  let after := networkFirst request DYNAMIC_CACHE (stale_world site_network) in
  fst after = Ok (ok_response "fresh") /\
  partition_get DYNAMIC_CACHE (url request) (snd after) = Some (ok_response "fresh").
Proof. vm_compute. repeat split. Qed.

Example networkFirst_offline_serves_stale_entry :
  let request := get_request "/lessons" in
  let after := networkFirst request DYNAMIC_CACHE (stale_world offline_network) in
  fst after = Ok (ok_response "stale") /\
  partition_get DYNAMIC_CACHE (url request) (snd after) = Some (ok_response "stale").
Proof. vm_compute. repeat split. Qed.

(** Stale-while-revalidate with a cached entry: the stale entry is the
    answer and the partition still holds it when the call returns; it holds
    the fresh response once the background promise has settled. *)
Example staleWhileRevalidate_serves_stale_then_updates :
  let request := get_request "/lessons" in
  let after := staleWhileRevalidate request DYNAMIC_CACHE (stale_world site_network) in
  fst after = Ok (VResponse (ok_response "stale")) /\
  partition_get DYNAMIC_CACHE (url request) (snd after) = Some (ok_response "stale") /\
  partition_get DYNAMIC_CACHE (url request) (settle (snd after))
    = Some (ok_response "fresh").
Proof. vm_compute. repeat split. Qed.

(** C4, where the code departs from it: nothing is cached for the request
    and the fetch rejects; [staleWhileRevalidate] then resolves to
    [undefined] instead of rejecting, because the [catch] callback of the
    background promise has swallowed the error. *)
Theorem staleWhileRevalidate_miss_offline :
  partition_get DYNAMIC_CACHE (url api_request) (empty_world offline_network)
    = None /\
  network (empty_world offline_network) 0 (FetchRequest api_request)
    = Rejected failed_fetch /\
  fst (staleWhileRevalidate api_request DYNAMIC_CACHE (empty_world offline_network))
    = Ok VUndefined /\
  fst (networkFirst api_request DYNAMIC_CACHE (empty_world offline_network))
    = Throw failed_fetch.
Proof. repeat split. Qed.

(** C7, where the code departs from it: the manifest is /a.css, /b.css;
    the first fetch succeeds and the second throws.  Preloading completes,
    /a.css is in the partition and /b.css is not, but the count the handler
    reports is 2 of 2: it counts the fulfilled promises of [safeCacheAdd],
    which fulfils with [false] when it skips an asset. *)
Theorem preload_reports_skipped_asset_as_cached :
  let after :=
    cacheStaticAssets example_location ["/a.css"; "/b.css"] STATIC_CACHE
      preload_world in
  fst after = Ok tt /\
  partition_get STATIC_CACHE (example_url "/a.css") (snd after)
    = Some (ok_response "A") /\
  partition_get STATIC_CACHE (example_url "/b.css") (snd after) = None /\
  console (snd after) =
    [LogCachingStatic; LogCached "/a.css"; LogSkipped "/b.css" failed_fetch;
     LogStaticCached 2 2].
Proof. vm_compute. repeat split. Qed.

(** The same on the worker's own manifest: one of the ten assets cannot be
    fetched, and the install handler reports ten of ten. *)
Example install_reports_ten_of_ten :
  let after := install example_location (empty_world install_network) in
  fst after = Ok tt /\
  partition_get STATIC_CACHE (example_url "/manifest.json") (snd after) = None /\
  In (LogSkipped "/manifest.json" failed_fetch) (console (snd after)) /\
  In (LogStaticCached 10 10) (console (snd after)).
Proof. vm_compute. intuition. Qed.


(** The loop on a list of three, with the removal placeholder of the
    source: 1, 2 and 3 are posted in order; the failure of 2 is logged and
    does not stop the walk. *)
Example sync_loop_goes_on_after_a_failure :
  let after :=
    syncFeedbackSubmissionsWith
      (ret [submission 1; submission 2; submission 3]) removePendingSubmission
      (empty_world sync_network) in
  fst after = Ok tt /\
  fetched (snd after) =
    [FetchPostJson "/api/feedback" (submission 1);
     FetchPostJson "/api/feedback" (submission 2);
     FetchPostJson "/api/feedback" (submission 3)] /\
  console (snd after) =
    [LogSynced 1; LogSyncFailed failed_fetch; LogSynced 3].
Proof. vm_compute. repeat split. Qed.

(** The loop does not look at the status of the answer: a delivery the
    server answers with status 500 is logged as synced and followed by the
    removal call, like a successful one. *)
Example sync_loop_takes_server_error_for_delivery :
  let after :=
    syncFeedbackSubmissionsWith (ret [submission 2]) removePendingSubmission
      (empty_world failing_server) in
  ok (mkResponse 500 "Internal Server Error" [] "") = false /\
  console (snd after) = [LogSynced 2].
Proof. vm_compute. repeat split. Qed.

(** The listener hands a request to [handleFetch] exactly when its method
    is GET and its scheme starts with http. *)
Lemma fetch_listener_intercepts self_location request :
  fetch_listener self_location request =
  if String.eqb (method request) "GET" &&
     startsWith (protocol (url request)) "http"
  then Some (handleFetch self_location request)
  else None.
Proof.
  unfold fetch_listener.
  destruct (String.eqb (method request) "GET"); [| reflexivity].
  destruct (startsWith (protocol (url request)) "http"); reflexivity.
Qed.

(** * Further properties of the worker *)

(** ** Helpers *)

Lemma dispatch_two_way request :
  dispatch request =
  fmapM VResponse
    (if isStaticAsset (pathname (url request))
     then cacheFirst request STATIC_CACHE
     else networkFirst request DYNAMIC_CACHE).
Proof.
  unfold dispatch.
  destruct (isStaticAsset _); [reflexivity |].
  destruct (isDynamicAsset _) eqn:Hdyn; [reflexivity |].
  destruct (startsWith _ "/api/") eqn:Hapi; [| reflexivity].
  apply api_prefix_is_dynamic in Hapi. congruence.
Qed.

Lemma lookup_in_In cs name key r :
  lookup_in cs name key = Some r ->
  exists c, In (name, c) cs /\ c !! key = Some r.
Proof.
  unfold lookup_in. induction cs as [|[n c] cs IH]; simpl; [discriminate |].
  destruct (String.eqb n name) eqn:E.
  - apply String.eqb_eq in E. subst n. intros H. exists c. auto.
  - intros H. destruct (IH H) as (c' & Hin & Hk). exists c'. auto.
Qed.

Lemma storage_get_put_is_Some cs name key r other :
  is_Some (storage_get cs other) ->
  is_Some (storage_get (storage_put cs name key r) other).
Proof.
  intros [c Hc]. rewrite storage_get_put.
  destruct (String.eqb name other) eqn:E; [| eauto].
  apply String.eqb_eq in E. subst other. rewrite Hc. simpl. eauto.
Qed.

Lemma STATIC_ASSETS_NoDup : List.NoDup STATIC_ASSETS.
Proof.
  unfold STATIC_ASSETS.
  repeat (constructor; [simpl; intuition discriminate |]). constructor.
Qed.

(** The manifest names ten different URLs. *)
Lemma STATIC_ASSETS_keys_distinct self_location i j a b :
  STATIC_ASSETS !! i = Some a ->
  STATIC_ASSETS !! j = Some b ->
  resolve self_location a = resolve self_location b ->
  i = j.
Proof.
  intros Hi Hj Hk. unfold resolve in Hk. injection Hk as ->.
  exact (NoDup_lookup _ _ _ _
           (proj2 (NoDup_ListNoDup _) STATIC_ASSETS_NoDup) Hi Hj).
Qed.

(** ** Stale-while-revalidate *)

(** X1: [staleWhileRevalidate] with a cached entry answers with that entry
    while its one fetch is still pending and the partitions are as they
    were; once the pending promises have settled, an ok response of that
    fetch which the cache accepts (status other than 206, no [Vary: *]) is
    the entry of the request and no other entry has changed, and a
    rejected fetch has changed nothing.  Without a cached entry, a fetch
    that resolves is what the caller gets, whatever its status. *)
Theorem staleWhileRevalidate_stale_then_fresh :
  (forall request cacheName s hit,
     partition_get cacheName (url request) s = Some hit ->
     exists s',
       staleWhileRevalidate request cacheName s = (Ok (VResponse hit), s') /\
       caches s' = caches s /\
       fetched s' = fetched s ++ [FetchRequest request] /\
       pending s' =
         pending s ++
         [Revalidate cacheName request
            (network s (length (fetched s)) (FetchRequest request))]) /\
  (forall request cacheName s r,
     pending s = [] ->
     network s (length (fetched s)) (FetchRequest request) = Resolved r ->
     ok r = true ->
     storable r = true ->
     let settled := settle (snd (staleWhileRevalidate request cacheName s)) in
     partition_get cacheName (url request) settled = Some r /\
     pending settled = [] /\
     forall name key,
       (name, key) <> (cacheName, url request) ->
       partition_get name key settled = partition_get name key s) /\
  (forall request cacheName s e,
     pending s = [] ->
     network s (length (fetched s)) (FetchRequest request) = Rejected e ->
     forall name key,
       partition_get name key
         (settle (snd (staleWhileRevalidate request cacheName s))) =
       partition_get name key s) /\
  (forall request cacheName s r,
     partition_get cacheName (url request) s = None ->
     network s (length (fetched s)) (FetchRequest request) = Resolved r ->
     fst (staleWhileRevalidate request cacheName s) = Ok (VResponse r)).
Proof.
  split; [| split; [| split]].
  - intros request cacheName s hit Hhit. unfold partition_get in Hhit.
    rewrite staleWhileRevalidate_run, Hhit. cbv zeta.
    eexists. split; [reflexivity |]. simpl.
    split; [eapply storage_open_existing; exact Hhit |]. auto.
  - intros request cacheName s r Hp Hnet Hok Hst settled. subst settled.
    destruct (staleWhileRevalidate_settled request cacheName s Hp) as (Hc & Hpend & _).
    unfold partition_get. rewrite Hc, Hnet. unfold revalidated.
    rewrite Hok, Hst. cbn [andb].
    split; [| split; [exact Hpend |]].
    + destruct (storage_get_open_same (caches s) cacheName) as [c Hopen].
      eapply lookup_in_put_same. exact Hopen.
    + intros name key Hne. rewrite lookup_in_put_other by exact Hne.
      apply lookup_in_open.
  - intros request cacheName s e Hp Hnet name key.
    destruct (staleWhileRevalidate_settled request cacheName s Hp) as (Hc & _).
    unfold partition_get. rewrite Hc, Hnet. apply lookup_in_open.
  - intros request cacheName s r Hmiss Hnet.
    rewrite (staleWhileRevalidate_miss request cacheName s Hmiss), Hnet.
    reflexivity.
Qed.

(** ** Preloading *)

(** X2: [safeCacheAdd] on a manifest entry never rejects and issues
    exactly one no-cache GET.  It resolves to [true] exactly when that
    fetch resolved with an ok response the cache accepts (status other
    than 206, no [Vary: *]); then the response is the entry of the entry's
    URL in the partition (when the partition exists) and nothing else has
    changed.  When it resolves to [false], because the fetch threw, the
    status was not ok or the cache rejected the put, cache storage is
    exactly as it was. *)
Theorem safeCacheAdd_result :
  forall self_location cache input s,
    In input STATIC_ASSETS ->
    exists b s',
      safeCacheAdd self_location cache input s = (Ok b, s') /\
      fetched s' = fetched s ++ [FetchGetNoCache input] /\
      (b = true <->
       exists r,
         network s (length (fetched s)) (FetchGetNoCache input) = Resolved r /\
         ok r = true /\ storable r = true) /\
      (b = true ->
       forall r,
         network s (length (fetched s)) (FetchGetNoCache input) = Resolved r ->
         (is_Some (storage_get (caches s) cache) ->
          partition_get cache (resolve self_location input) s' = Some r) /\
         forall name key,
           (name, key) <> (cache, resolve self_location input) ->
           partition_get name key s' = partition_get name key s) /\
      (b = false -> caches s' = caches s).
Proof.
  intros loc cache input s _. rewrite safeCacheAdd_run. cbv zeta.
  unfold partition_get.
  destruct (network s (length (fetched s)) (FetchGetNoCache input)) as [r|e] eqn:Hnet;
    [destruct (ok r) eqn:Hok; [destruct (storable r) eqn:Hst |] |].
  - eexists _, _. split; [reflexivity |]. simpl. split; [reflexivity |].
    split; [split; eauto |]. split; [| discriminate].
    intros _ r' [= <-]. split.
    + intros [c Hc]. eapply lookup_in_put_same. exact Hc.
    + intros name key Hne. apply lookup_in_put_other. exact Hne.
  - eexists _, _. split; [reflexivity |]. simpl. split; [reflexivity |].
    split; [| split; [discriminate | reflexivity]].
    split; [discriminate |]. intros (r' & [= <-] & _ & Hst'). congruence.
  - eexists _, _. split; [reflexivity |]. simpl. split; [reflexivity |].
    split; [| split; [discriminate | reflexivity]].
    split; [discriminate |]. intros (r' & [= <-] & Hok' & _). congruence.
  - eexists _, _. split; [reflexivity |]. simpl. split; [reflexivity |].
    split; [| split; [discriminate | reflexivity]].
    split; [discriminate |]. intros (r' & [=] & _).
Qed.

Lemma safeCacheAdd_result_styles :
  let world := with_caches [(STATIC_CACHE, ∅)] (empty_world install_network) in
  In "/styles.css" STATIC_ASSETS /\
  exists s',
    safeCacheAdd example_location STATIC_CACHE "/styles.css" world = (Ok true, s') /\
    partition_get STATIC_CACHE (resolve example_location "/styles.css") s'
      = Some (ok_response "/styles.css").
Proof.
  cbv zeta.
  assert (Hin : In "/styles.css" STATIC_ASSETS) by (simpl; tauto).
  split; [exact Hin |].
  destruct (safeCacheAdd_result example_location STATIC_CACHE "/styles.css"
              (with_caches [(STATIC_CACHE, ∅)] (empty_world install_network)) Hin)
    as (b & s' & Hrun & _ & Hb & Hput & _).
  assert (Htrue : b = true).
  { apply Hb. exists (ok_response "/styles.css"). repeat split. }
  subst b. exists s'. split; [exact Hrun |].
  apply (Hput eq_refl (ok_response "/styles.css") eq_refl).
  vm_compute. eauto.
Defined.

Lemma allSettled_safeCacheAdd_caches self_location cache assets :
  forall s,
    exists rs s',
      allSettled (map (fun asset => safeCacheAdd self_location cache asset) assets) s
        = (Ok rs, s') /\
      caches s' =
        preloaded self_location cache (network s) (length (fetched s)) assets
          (caches s) /\
      network s' = network s /\
      pending s' = pending s /\
      queue s' = queue s.
Proof.
  induction assets as [|a assets IH]; intros s.
  - exists [], s. simpl. auto.
  - cbn [map allSettled preloaded]. rewrite safeCacheAdd_run. cbv zeta.
    destruct (network s (length (fetched s)) (FetchGetNoCache a)) as [r|e];
      [destruct (ok r); [destruct (storable r) |] |].
    all: unfold bind, ret.
    all: match goal with |- context [allSettled _ ?st] =>
           destruct (IH st) as (rs & s' & Hrun & Hc & Hn & Hp & Hq) end.
    all: rewrite Hrun; eexists _, _; (split; [reflexivity |]).
    all: simpl in *; rewrite length_app in Hc; simpl in Hc.
    all: replace (length (fetched s) + 1) with (S (length (fetched s))) in Hc by lia.
    all: auto.
Qed.

Lemma preloaded_frame self_location cache net assets :
  forall n cs name key,
    (name <> cache \/
     forall j a r,
       assets !! j = Some a ->
       resolve self_location a = key ->
       net (n + j) (FetchGetNoCache a) = Resolved r ->
       ok r && storable r = false) ->
    lookup_in (preloaded self_location cache net n assets cs) name key =
    lookup_in cs name key.
Proof.
  induction assets as [|a assets IH]; intros n cs name key Hfree; [reflexivity |].
  cbn [preloaded]. rewrite IH.
  - destruct (net n (FetchGetNoCache a)) as [r|e] eqn:Hnet; [| reflexivity].
    destruct (ok r && storable r) eqn:Hok; [| reflexivity].
    apply lookup_in_put_other. intros [= Hname Hkey].
    destruct Hfree as [Hne | Hbad]; [congruence |].
    specialize (Hbad 0 a r eq_refl (eq_sym Hkey)). rewrite Nat.add_0_r in Hbad.
    specialize (Hbad Hnet). congruence.
  - destruct Hfree as [Hne | Hbad]; [left; exact Hne | right].
    intros j a' r Ha Hk Hnet. apply (Hbad (S j) a' r Ha Hk).
    rewrite Nat.add_succ_r. exact Hnet.
Qed.

Lemma preloaded_keeps_partitions self_location cache net assets :
  forall n cs name,
    is_Some (storage_get cs name) ->
    is_Some (storage_get (preloaded self_location cache net n assets cs) name).
Proof.
  induction assets as [|a assets IH]; intros n cs name Hsome; [exact Hsome |].
  cbn [preloaded]. apply IH.
  destruct (net n (FetchGetNoCache a)) as [r|e]; [| exact Hsome].
  destruct (ok r && storable r); [| exact Hsome].
  apply storage_get_put_is_Some. exact Hsome.
Qed.

(** An entry put by the promise of a manifest position stays, when no
    later position of the manifest names the same URL. *)
Lemma preloaded_last self_location cache net assets :
  forall n cs i input r,
    is_Some (storage_get cs cache) ->
    assets !! i = Some input ->
    net (n + i) (FetchGetNoCache input) = Resolved r ->
    ok r = true ->
    storable r = true ->
    (forall j a,
       i < j -> assets !! j = Some a ->
       resolve self_location a <> resolve self_location input) ->
    lookup_in (preloaded self_location cache net n assets cs) cache
      (resolve self_location input) = Some r.
Proof.
  induction assets as [|a assets IH];
    intros n cs i input r Hcache Hi Hnet Hok Hst Hlast; [discriminate |].
  cbn [preloaded]. destruct i as [|i].
  - injection Hi as ->. rewrite Nat.add_0_r in Hnet. rewrite Hnet, Hok, Hst.
    cbn [andb]. rewrite preloaded_frame.
    + destruct Hcache as [c Hc]. eapply lookup_in_put_same. exact Hc.
    + right. intros j a r' Ha Hk _. exfalso.
      apply (Hlast (S j) a); [lia | exact Ha | exact Hk].
  - eapply IH.
    + apply (preloaded_keeps_partitions self_location cache net [a] n cs cache Hcache).
    + exact Hi.
    + rewrite Nat.add_succ_r in Hnet. exact Hnet.
    + exact Hok.
    + exact Hst.
    + intros j a' Hlt Ha. apply (Hlast (S j) a'); [lia | exact Ha].
Qed.

Lemma cacheStaticAssetsWhile_caches self_location meanwhile assets cache s :
  caches (snd (cacheStaticAssetsWhile self_location meanwhile assets cache s)) =
  preloaded self_location cache (network s) (length (fetched s)) assets (caches s).
Proof.
  unfold cacheStaticAssetsWhile. unfold bind at 1 2.
  unfold console_log at 1. unfold console_logs.
  destruct (allSettled_safeCacheAdd_caches self_location cache assets
              (with_console
                 (console (with_console (console s ++ [LogCachingStatic]) s)
                    ++ meanwhile)
                 (with_console (console s ++ [LogCachingStatic]) s)))
    as (rs & s1 & Hall & Hc1 & _).
  unfold bind. rewrite Hall. unfold console_log. exact Hc1.
Qed.

Lemma allSettled_safeCacheAdd_console self_location cache assets :
  forall s,
    exists rs s' logged,
      allSettled (map (fun asset => safeCacheAdd self_location cache asset) assets) s
        = (Ok rs, s') /\
      console s' = console s ++ logged /\
      forall successful total, ~ In (LogStaticCached successful total) logged.
Proof.
  induction assets as [|a assets IH]; intros s.
  - exists [], s, []. simpl. rewrite app_nil_r. auto.
  - cbn [map allSettled]. rewrite safeCacheAdd_run. cbv zeta.
    destruct (network s (length (fetched s)) (FetchGetNoCache a)) as [r|e];
      [destruct (ok r); [destruct (storable r) |] |].
    all: unfold bind, ret.
    all: match goal with |- context [allSettled _ ?st] =>
           destruct (IH st) as (rs & s' & logged & Hrun & Hc & Hno) end.
    all: rewrite Hrun; simpl in Hc; rewrite <- app_assoc in Hc.
    all: eexists _, _, _; (split; [reflexivity |]); split; [exact Hc |].
    all: intros successful total [Hin | Hin]; [discriminate | eapply Hno; exact Hin].
Qed.

Lemma cacheStaticAssetsWhile_console self_location meanwhile assets cache s :
  exists logged,
    console (snd (cacheStaticAssetsWhile self_location meanwhile assets cache s)) =
      ((console s ++ [LogCachingStatic]) ++ meanwhile) ++ logged
        ++ [LogStaticCached (length assets) (length assets)] /\
    forall successful total, ~ In (LogStaticCached successful total) logged.
Proof.
  unfold cacheStaticAssetsWhile. unfold bind at 1 2.
  unfold console_log at 1. unfold console_logs.
  destruct (allSettled_safeCacheAdd self_location cache assets
              (with_console
                 (console (with_console (console s ++ [LogCachingStatic]) s)
                    ++ meanwhile)
                 (with_console (console s ++ [LogCachingStatic]) s)))
    as (rs & s1 & Hrun & Hlen & _).
  destruct (allSettled_safeCacheAdd_console self_location cache assets
              (with_console
                 (console (with_console (console s ++ [LogCachingStatic]) s)
                    ++ meanwhile)
                 (with_console (console s ++ [LogCachingStatic]) s)))
    as (rs' & s1' & logged & Hrun' & Hc & Hno).
  rewrite Hrun in Hrun'. injection Hrun' as <- <-.
  unfold bind. rewrite Hrun, Hlen. unfold console_log. simpl in *.
  exists logged. rewrite Hc, <- app_assoc. split; [reflexivity | exact Hno].
Qed.

(** X4: whatever the network does, the only count a preload logs is the
    length of the manifest out of the length of the manifest: the handler
    counts the promises of [safeCacheAdd] that fulfilled, and they all do,
    also the ones that skipped their asset. *)
Theorem preload_count_is_manifest_length :
  forall self_location assets cache s successful total,
    In (LogStaticCached successful total)
       (console (snd (cacheStaticAssets self_location assets cache s))) <->
    In (LogStaticCached successful total) (console s) \/
    (successful = length assets /\ total = length assets).
Proof.
  intros loc assets cache s successful total.
  destruct (cacheStaticAssetsWhile_console loc [] assets cache s)
    as (logged & Hc & Hno).
  unfold cacheStaticAssets. rewrite Hc, !List.in_app_iff. simpl. split.
  - intros [[[H | [H | []]] | []] | [H | [H | []]]].
    + left. exact H.
    + discriminate.
    + exfalso. eapply Hno. exact H.
    + injection H as <- <-. right. auto.
  - intros [H | [-> ->]];
      [left; left; left; exact H | right; right; left; reflexivity].
Qed.

(** X5: the install handler never fails, whatever the network does.
    Afterwards the static and the dynamic partition both exist, the worker
    has issued one no-cache GET per manifest entry in manifest order, every
    manifest entry whose fetch resolved with an ok response the cache
    accepts (status other than 206, no [Vary: *]) is the static
    partition's entry for its URL, and no entry of another partition has
    changed. *)
Theorem install_prepares_partitions :
  forall self_location s,
    exists s',
      install self_location s = (Ok tt, s') /\
      is_Some (storage_get (caches s') STATIC_CACHE) /\
      is_Some (storage_get (caches s') DYNAMIC_CACHE) /\
      fetched s' = fetched s ++ map FetchGetNoCache STATIC_ASSETS /\
      (forall i input r,
         STATIC_ASSETS !! i = Some input ->
         network s (length (fetched s) + i) (FetchGetNoCache input) = Resolved r ->
         ok r = true ->
         storable r = true ->
         partition_get STATIC_CACHE (resolve self_location input) s' = Some r) /\
      (forall name key,
         name <> STATIC_CACHE ->
         partition_get name key s' = partition_get name key s).
Proof.
  intros loc s. unfold install. unfold bind at 1 2 3. unfold console_log at 1.
  unfold caches_open at 1 2. cbn [caches with_caches with_console].
  set (opened :=
         with_caches
           (storage_open (storage_open (caches s) STATIC_CACHE) DYNAMIC_CACHE)
           (with_caches (storage_open (caches s) STATIC_CACHE)
              (with_console (console s ++ [LogInstalling]) s))).
  pose proof (cacheStaticAssetsWhile_caches loc [LogDynamicInit] STATIC_ASSETS
                STATIC_CACHE opened) as Hc.
  destruct (cacheStaticAssetsWhile_run loc [LogDynamicInit] STATIC_ASSETS
              STATIC_CACHE opened)
    as (s1 & Hrun & _ & Hf & _).
  rewrite Hrun in *. cbn [snd] in Hc.
  change (network opened) with (network s) in Hc.
  change (fetched opened) with (fetched s) in *.
  change (caches opened)
    with (storage_open (storage_open (caches s) STATIC_CACHE) DYNAMIC_CACHE) in Hc.
  eexists. split; [reflexivity |]. unfold partition_get. rewrite Hc.
  assert (Hstatic : is_Some (storage_get
            (storage_open (storage_open (caches s) STATIC_CACHE) DYNAMIC_CACHE)
            STATIC_CACHE)).
  { destruct (storage_get_open_same (caches s) STATIC_CACHE) as [c Hs].
    rewrite storage_get_open, Hs. eauto. }
  split; [apply preloaded_keeps_partitions; exact Hstatic |].
  split; [apply preloaded_keeps_partitions;
          destruct (storage_get_open_same
                      (storage_open (caches s) STATIC_CACHE) DYNAMIC_CACHE)
            as [c Hd]; rewrite Hd; eauto |].
  split; [exact Hf |]. split.
  - intros i input r Hi Hnet Hok Hst.
    eapply preloaded_last;
      [exact Hstatic | exact Hi | exact Hnet | exact Hok | exact Hst |].
    intros j a Hlt Hj Hk.
    pose proof (STATIC_ASSETS_keys_distinct loc _ _ _ _ Hj Hi Hk). lia.
  - intros name key Hne. rewrite preloaded_frame by (left; exact Hne).
    rewrite !lookup_in_open. reflexivity.
Qed.

(** ** Fetch interception, end to end *)

Lemma handleFetch_run self_location request s :
  handleFetch self_location request s =
  match (if isStaticAsset (pathname (url request))
         then cacheFirst request STATIC_CACHE
         else networkFirst request DYNAMIC_CACHE) s with
  | (Ok r, s1) => (Ok (VResponse r), s1)
  | (Throw e, s1) =>
      fmapM VResponse (handleOfflineFallback self_location request)
        (with_console (console s1 ++ [LogFetchError e]) s1)
  end.
Proof.
  unfold handleFetch, try_catch. rewrite dispatch_two_way, fmapM_run.
  destruct (isStaticAsset (pathname (url request))).
  - destruct (cacheFirst request STATIC_CACHE s) as [[r|e] s1]; reflexivity.
  - destruct (networkFirst request DYNAMIC_CACHE s) as [[r|e] s1]; reflexivity.
Qed.

Lemma handleOfflineFallback_state self_location request s :
  exists s',
    handleOfflineFallback self_location request s =
    (Ok (fallback_choice self_location request s), s') /\
    (s' = s \/ s' = with_caches (storage_open (caches s) STATIC_CACHE) s).
Proof.
  unfold handleOfflineFallback, fallback_choice, partition_get. unfold_monad.
  destruct (mode request); simpl.
  1: rewrite lookup_in_open;
     destruct (lookup_in (caches s) STATIC_CACHE _);
     [| cbn [caches with_caches]; rewrite storage_match_open].
  all: try destruct (storage_match (caches s) (url request)).
  all: eexists; (split; [reflexivity |]); auto.
Qed.

Lemma fallback_choice_same self_location request s s' :
  (forall name key, partition_get name key s' = partition_get name key s) ->
  storage_match (caches s') (url request) = storage_match (caches s) (url request) ->
  fallback_choice self_location request s' = fallback_choice self_location request s.
Proof.
  intros Hsame Hmatch. unfold fallback_choice. rewrite Hsame, Hmatch. reflexivity.
Qed.

(** What [handleFetch] does to the world. *)
Lemma handleFetch_effects self_location request s :
  let s' := snd (handleFetch self_location request s) in
  (fetched s' = fetched s \/ fetched s' = fetched s ++ [FetchRequest request]) /\
  pending s' = pending s /\
  queue s' = queue s /\
  network s' = network s /\
  forall name key,
    (name, key) <> (strategy_partition (pathname (url request)), url request) ->
    partition_get name key s' = partition_get name key s.
Proof.
  cbv zeta. rewrite handleFetch_run. unfold strategy_partition, partition_get.
  destruct (isStaticAsset (pathname (url request))).
  - rewrite cacheFirst_run. cbv zeta.
    destruct (lookup_in (caches s) STATIC_CACHE (url request)) as [hit|];
      [| destruct (network s _ _) as [r|e];
         [destruct (ok r); [destruct (storable r) |] |]].
    all: try rewrite fmapM_run.
    all: try match goal with |- context [handleOfflineFallback _ _ ?st] =>
               destruct (handleOfflineFallback_state self_location request st)
                 as (s' & -> & [-> | ->]) end.
    all: simpl; repeat split; auto; intros name key Hne.
    all: rewrite ?lookup_in_put_other by exact Hne.
    all: rewrite ?lookup_in_open; reflexivity.
  - rewrite networkFirst_run. cbv zeta.
    destruct (network s _ _) as [r|e];
      [destruct (ok r); [destruct (storable r) |] |].
    all: try destruct (lookup_in (caches s) DYNAMIC_CACHE (url request)) as [hit|].
    all: try rewrite fmapM_run.
    all: try match goal with |- context [handleOfflineFallback _ _ ?st] =>
               destruct (handleOfflineFallback_state self_location request st)
                 as (s' & -> & [-> | ->]) end.
    all: simpl; repeat split; auto; intros name key Hne.
    all: rewrite ?lookup_in_put_other by exact Hne.
    all: rewrite ?lookup_in_open; reflexivity.
Qed.

(** X6: [handleFetch] goes to the network at most once per request, and
    only for the request itself; it leaves no promise pending and does not
    touch the submission queue. *)
Theorem handleFetch_fetches_at_most_once :
  forall self_location request s,
    let s' := snd (handleFetch self_location request s) in
    (fetched s' = fetched s \/ fetched s' = fetched s ++ [FetchRequest request]) /\
    pending s' = pending s /\
    queue s' = queue s.
Proof.
  intros loc request s.
  destruct (handleFetch_effects loc request s) as (Hf & Hp & Hq & _).
  cbv zeta. auto.
Qed.

(** X7: the only partition entry [handleFetch] can change is the entry of
    the request's own URL in the partition of its strategy (the static
    partition for a static path, the dynamic one otherwise); every other
    entry of every partition is as it was. *)
Theorem handleFetch_touches_only_its_entry :
  forall self_location request s name key,
    (name = strategy_partition (pathname (url request)) /\ key = url request) \/
    partition_get name key (snd (handleFetch self_location request s)) =
    partition_get name key s.
Proof.
  intros loc request s name key.
  destruct (handleFetch_effects loc request s) as (_ & _ & _ & _ & Hframe).
  destruct (decide ((name, key) =
                    (strategy_partition (pathname (url request)), url request)))
    as [[= -> ->] | Hne]; [left; auto | right; apply Hframe; exact Hne].
Qed.

Lemma handleFetch_offline_run self_location request s e :
  network s (length (fetched s)) (FetchRequest request) = Rejected e ->
  fst (handleFetch self_location request s) =
  Ok (VResponse
        match partition_get (strategy_partition (pathname (url request)))
                (url request) s with
        | Some hit => hit
        | None => fallback_choice self_location request s
        end).
Proof.
  intros Hnet. rewrite handleFetch_run. unfold strategy_partition, partition_get.
  destruct (isStaticAsset (pathname (url request))).
  - rewrite cacheFirst_run. cbv zeta.
    destruct (lookup_in (caches s) STATIC_CACHE (url request)) as [hit|];
      [reflexivity |].
    rewrite Hnet, fmapM_run.
    match goal with |- context [handleOfflineFallback _ _ ?st] =>
      destruct (handleOfflineFallback_state self_location request st)
        as (s' & -> & _) end.
    simpl. do 2 f_equal. apply fallback_choice_same.
    + intros. unfold partition_get. simpl. apply lookup_in_open.
    + simpl. apply storage_match_open.
  - rewrite networkFirst_run, Hnet. cbv zeta.
    destruct (lookup_in (caches s) DYNAMIC_CACHE (url request)) as [hit|];
      [reflexivity |].
    rewrite fmapM_run.
    match goal with |- context [handleOfflineFallback _ _ ?st] =>
      destruct (handleOfflineFallback_state self_location request st)
        as (s' & -> & _) end.
    simpl. do 2 f_equal. apply fallback_choice_same.
    + intros. unfold partition_get. simpl. apply lookup_in_open.
    + simpl. apply storage_match_open.
Qed.

(** X8: when the network rejects the request, [handleFetch] answers with
    the entry of the request in its strategy's partition if there is one,
    and with the fallback's choice otherwise; and whenever some partition
    holds an entry for the request's URL, the answer is an entry of some
    partition, not the synthesized response. *)
Theorem handleFetch_offline_answer :
  forall self_location request s e,
    network s (length (fetched s)) (FetchRequest request) = Rejected e ->
    exists r,
      fst (handleFetch self_location request s) = Ok (VResponse r) /\
      (forall hit,
         partition_get (strategy_partition (pathname (url request)))
           (url request) s = Some hit ->
         r = hit) /\
      (partition_get (strategy_partition (pathname (url request)))
         (url request) s = None ->
       r = fallback_choice self_location request s) /\
      (is_Some (storage_match (caches s) (url request)) ->
       exists name c key, In (name, c) (caches s) /\ c !! key = Some r).
Proof.
  intros loc request s e Hnet. eexists. split.
  - apply (handleFetch_offline_run loc request s e Hnet).
  - destruct (partition_get (strategy_partition (pathname (url request)))
                (url request) s) as [hit|] eqn:Hown.
    + split; [intros h [= <-]; reflexivity |]. split; [discriminate |].
      intros _. destruct (lookup_in_In _ _ _ _ Hown) as (c & Hin & Hk). eauto.
    + split; [discriminate |]. split; [reflexivity |].
      intros [hit Hhit]. unfold fallback_choice. rewrite Hhit.
      destruct (match mode request with
                | Navigate =>
                    partition_get STATIC_CACHE (resolve loc "/index.html") s
                | _ => None
                end) as [d|] eqn:Hdoc.
      * destruct (mode request); try discriminate.
        destruct (lookup_in_In _ _ _ _ Hdoc) as (c & Hin & Hk). eauto.
      * destruct (storage_match_Some _ _ _ Hhit) as (name & c & Hin & Hk). eauto.
Qed.

Lemma handleFetch_offline_answer_stale :
  network (stale_world offline_network) 0 (FetchRequest (get_request "/lessons"))
    = Rejected failed_fetch /\
  fst (handleFetch example_location (get_request "/lessons")
         (stale_world offline_network))
    = Ok (VResponse (ok_response "stale")).
Proof.
  split; [reflexivity |].
  destruct (handleFetch_offline_answer example_location (get_request "/lessons")
              (stale_world offline_network) failed_fetch eq_refl)
    as (r & Hr & Hhit & _).
  rewrite Hr. do 2 f_equal. apply Hhit. vm_compute. reflexivity.
Defined.

(** X9: what was fetched once is served offline.  When the network answers
    the request with an ok response the cache accepts (status other than
    206, no [Vary: *]), [handleFetch] returns a response that is then the
    entry of the request in its strategy's partition (the
    network's response, unless the static partition already held an entry);
    and in any later state where that entry is still there and the network
    rejects the request, [handleFetch] returns the same response. *)
Theorem handleFetch_serves_offline_what_it_fetched :
  forall self_location request s r,
    network s (length (fetched s)) (FetchRequest request) = Resolved r ->
    ok r = true ->
    storable r = true ->
    exists r0 s1,
      handleFetch self_location request s = (Ok (VResponse r0), s1) /\
      (isStaticAsset (pathname (url request)) = false \/
       partition_get STATIC_CACHE (url request) s = None ->
       r0 = r) /\
      partition_get (strategy_partition (pathname (url request)))
        (url request) s1 = Some r0 /\
      forall s2 e,
        partition_get (strategy_partition (pathname (url request)))
          (url request) s2 = Some r0 ->
        network s2 (length (fetched s2)) (FetchRequest request) = Rejected e ->
        fst (handleFetch self_location request s2) = Ok (VResponse r0).
Proof.
  intros loc request s r Hnet Hok Hst.
  assert (Hlater : forall r0 s2 e,
            partition_get (strategy_partition (pathname (url request)))
              (url request) s2 = Some r0 ->
            network s2 (length (fetched s2)) (FetchRequest request) = Rejected e ->
            fst (handleFetch loc request s2) = Ok (VResponse r0)).
  { intros r0 s2 e Hentry Hrej.
    rewrite (handleFetch_offline_run loc request s2 e Hrej), Hentry. reflexivity. }
  rewrite handleFetch_run. unfold strategy_partition, partition_get in *.
  destruct (isStaticAsset (pathname (url request))).
  - rewrite cacheFirst_run. cbv zeta.
    destruct (lookup_in (caches s) STATIC_CACHE (url request)) as [hit|] eqn:Hhit.
    + eexists _, _. split; [reflexivity |]. simpl.
      split; [intros [? | ?]; discriminate |].
      split; [rewrite lookup_in_open; exact Hhit | apply Hlater].
    + rewrite Hnet, Hok, Hst. eexists _, _. split; [reflexivity |]. simpl.
      split; [reflexivity |]. split; [| apply Hlater].
      destruct (storage_get_open_same (caches s) STATIC_CACHE) as [c Hc].
      eapply lookup_in_put_same. exact Hc.
  - rewrite networkFirst_run, Hnet, Hok, Hst. cbv zeta.
    eexists _, _. split; [reflexivity |]. simpl.
    split; [reflexivity |]. split; [| apply Hlater].
    destruct (storage_get_open_same (caches s) DYNAMIC_CACHE) as [c Hc].
    eapply lookup_in_put_same. exact Hc.
Qed.

Lemma handleFetch_serves_offline_what_it_fetched_lessons :
  exists s1,
    handleFetch example_location (get_request "/lessons") (empty_world flaky_network)
      = (Ok (VResponse (ok_response "fresh")), s1) /\
    network s1 (length (fetched s1)) (FetchRequest (get_request "/lessons"))
      = Rejected failed_fetch /\
    fst (handleFetch example_location (get_request "/lessons") s1)
      = Ok (VResponse (ok_response "fresh")).
Proof.
  destruct (handleFetch_serves_offline_what_it_fetched example_location
              (get_request "/lessons") (empty_world flaky_network)
              (ok_response "fresh") eq_refl eq_refl eq_refl)
    as (r0 & s1 & Hrun & Hr0 & Hentry & Hlater).
  assert (E : r0 = ok_response "fresh") by (apply Hr0; left; reflexivity).
  subst r0. exists s1. split; [exact Hrun |].
  assert (Hs1 : s1 = snd (handleFetch example_location (get_request "/lessons")
                            (empty_world flaky_network))) by (rewrite Hrun; reflexivity).
  assert (Hrej : network s1 (length (fetched s1))
                   (FetchRequest (get_request "/lessons")) = Rejected failed_fetch)
    by (rewrite Hs1; vm_compute; reflexivity).
  split; [exact Hrej |]. eapply Hlater; [exact Hentry | exact Hrej].
Defined.

(** ** Activation, again *)

(** X10: activation never fails and never goes to the network, and running
    it a second time changes nothing: cache storage after two activations
    is cache storage after one. *)
Theorem activate_idempotent :
  forall s,
    exists s1 s2,
      activate s = (Ok tt, s1) /\
      activate s1 = (Ok tt, s2) /\
      caches s2 = caches s1 /\
      fetched s2 = fetched s.
Proof.
  intros s.
  destruct (activate_run s) as (s1 & Hrun1 & Hf1 & Hc1).
  destruct (activate_run s1) as (s2 & Hrun2 & Hf2 & Hc2).
  exists s1, s2. split; [exact Hrun1 |]. split; [exact Hrun2 |].
  split; [| congruence].
  rewrite Hc2, Hc1, filter_twice. apply List.filter_ext.
  intros [n c]. simpl. destruct (is_old_cache n); reflexivity.
Qed.

(** ** Background sync, again *)

Lemma sync_one_never_rejects removePending submission s :
  exists s', sync_one removePending submission s = (Ok tt, s').
Proof.
  unfold sync_one, try_catch.
  destruct ((_ <- submitFeedback submission ;;
             _ <- removePending (id submission) ;;
             console_log (LogSynced (id submission))) s) as [[[]|e] s1] eqn:Hbody.
  - eauto.
  - unfold console_log. eauto.
Qed.

Lemma for_of_sync_never_rejects removePending items :
  forall s, exists s', for_of items (sync_one removePending) s = (Ok tt, s').
Proof.
  induction items as [|x items IH]; intros s.
  - exists s. reflexivity.
  - cbn [for_of]. unfold bind.
    destruct (sync_one_never_rejects removePending x s) as (s1 & ->).
    apply IH.
Qed.

(** X11: a sync trigger never rejects, whatever its storage functions do:
    if listing the pending submissions throws, or a delivery throws, or a
    removal throws, the error is logged and the trigger still resolves. *)
Theorem sync_trigger_never_rejects :
  forall getPending removePending s,
    exists s',
      syncFeedbackSubmissionsWith getPending removePending s = (Ok tt, s').
Proof.
  intros getPending removePending s.
  unfold syncFeedbackSubmissionsWith, try_catch, bind.
  destruct (getPending s) as [[items|e] s1].
  - destruct (for_of_sync_never_rejects removePending items s1) as (s' & ->). eauto.
  - unfold console_log. eauto.
Qed.

(** ** Cache-first, when the network is down *)

(** X12: on a miss with the network rejecting, [cacheFirst] throws the
    network's error to its caller after exactly one fetch, and no partition
    entry has changed. *)
Theorem cacheFirst_miss_offline :
  forall request cacheName s e,
    partition_get cacheName (url request) s = None ->
    network s (length (fetched s)) (FetchRequest request) = Rejected e ->
    exists s',
      cacheFirst request cacheName s = (Throw e, s') /\
      fetched s' = fetched s ++ [FetchRequest request] /\
      forall name key, partition_get name key s' = partition_get name key s.
Proof.
  intros request cacheName s e Hmiss Hnet. unfold partition_get in *.
  rewrite cacheFirst_run, Hmiss, Hnet. cbv zeta.
  eexists. split; [reflexivity |]. simpl. split; [reflexivity |].
  intros. apply lookup_in_open.
Qed.

Lemma cacheFirst_miss_offline_styles :
  exists s',
    cacheFirst (get_request "/styles.css") STATIC_CACHE (empty_world offline_network)
      = (Throw failed_fetch, s') /\
    fetched s' = [FetchRequest (get_request "/styles.css")].
Proof.
  destruct (cacheFirst_miss_offline (get_request "/styles.css") STATIC_CACHE
              (empty_world offline_network) failed_fetch eq_refl eq_refl)
    as (s' & Hrun & Hf & _).
  exists s'. split; [exact Hrun | exact Hf].
Defined.

(** ** The fetch listener *)

(** X13: the fetch listener of the worker declines every request whose
    method is not GET or whose scheme does not start with http; every
    request it takes is answered by a promise that resolves to a response
    object in every state of the world. *)
Theorem fetch_listener_answers_what_it_takes :
  forall self_location request,
    (fetch_listener self_location request = None <->
     method request <> "GET" \/
     startsWith (protocol (url request)) "http" = false) /\
    (forall answer,
       fetch_listener self_location request = Some answer ->
       forall s, exists r s', answer s = (Ok (VResponse r), s')).
Proof.
  intros loc request. unfold fetch_listener.
  destruct (String.eqb (method request) "GET") eqn:Hm;
    [apply String.eqb_eq in Hm | apply String.eqb_neq in Hm];
    cbn [negb].
  - destruct (startsWith (protocol (url request)) "http") eqn:Hp; cbn [negb].
    + split; [split; [discriminate | intros [? | ?]; congruence] |].
      intros answer [= <-] s. rewrite handleFetch_run.
      destruct ((if isStaticAsset (pathname (url request))
                 then cacheFirst request STATIC_CACHE
                 else networkFirst request DYNAMIC_CACHE) s) as [[r|e] s1]; [eauto |].
      rewrite fmapM_run.
      match goal with |- context [handleOfflineFallback _ _ ?st] =>
        destruct (handleOfflineFallback_state loc request st) as (s' & -> & _) end.
      eauto.
    + split; [split; auto | discriminate].
  - split; [split; auto | discriminate].
Qed.

(** ** Push and notification handlers *)

(** X15: a click always closes the notification first, and then opens the
    application's root exactly when the action is open or empty (the
    notification itself was clicked); of the two actions the push listener
    offers, open opens the root and dismiss only closes. *)
Theorem notificationclick_opens_root :
  (forall action,
     exists rest,
       notificationclick_listener action = CloseNotification :: rest /\
       (action = "open" \/ action = "" -> rest = [OpenWindow "/"]) /\
       (action <> "open" -> action <> "" -> rest = [])) /\
  (forall (J : Type) (truthy : J -> bool) field title options action label,
     push_listener J truthy (Parsed (PayloadValue field)) = Shown title options ->
     In (action, label) (opt_actions options) ->
     (In (OpenWindow "/") (notificationclick_listener action) <-> action = "open")).
Proof.
  split.
  - intros action. unfold notificationclick_listener. eexists. split; [reflexivity |].
    split.
    + intros [-> | ->]; reflexivity.
    + intros H1 H2. apply String.eqb_neq in H1, H2. rewrite H1, H2. reflexivity.
  - intros J truthy field title options action label [= <- <-] Hin.
    simpl in Hin. destruct Hin as [H | [H | H]]; [| | contradiction].
    + injection H as Ha _. subst action.
      split; [reflexivity | intros _; simpl; auto].
    + injection H as Ha _. subst action.
      split; [| discriminate]. simpl. intros [H | H]; [discriminate | contradiction].
Qed.

(** ** The fetch handler of the first worker (sw.js) *)

Lemma legacy_fetch_handler_run self_location request s :
  SwV1.fetch_handler self_location request s =
  match (if String.eqb (method request) "GET"
         then storage_match (caches s) (url request)
         else None) with
  | Some hit => (Ok (VResponse hit), s)
  | None =>
      let asked := with_fetched (fetched s ++ [FetchRequest request]) s in
      match network s (length (fetched s)) (FetchRequest request) with
      | Resolved r =>
          let opened :=
            with_caches (storage_open (caches s) Legacy.CACHE_NAME) asked in
          (Ok (VResponse r),
           if SwV1.cacheable request
           then with_pending
                  (pending s ++ [Put Legacy.CACHE_NAME (url request) r]) opened
           else opened)
      | Rejected _ =>
          (Ok match mode request with
              | Navigate =>
                  match storage_match (caches s)
                          (resolve self_location "/index.html") with
                  | Some d => VResponse d
                  | None => VUndefined
                  end
              | _ => VUndefined
              end,
           asked)
      end
  end.
Proof.
  unfold SwV1.fetch_handler, SwV1.match_request, SwV1.put_unawaited.
  unfold bind at 1.
  destruct (String.eqb (method request) "GET"); unfold_monad; simpl.
  - destruct (storage_match (caches s) (url request)); [reflexivity |].
    destruct (network s _ _) as [r|e]; simpl.
    + destruct (SwV1.cacheable request); reflexivity.
    + destruct (mode request); reflexivity.
  - destruct (network s _ _) as [r|e]; simpl.
    + destruct (SwV1.cacheable request); reflexivity.
    + destruct (mode request); reflexivity.
Qed.

(** X16: the fetch handler of sw.js never rejects, but it does not always
    resolve to a response: it resolves to [undefined] exactly when no
    partition matches the request, the fetch rejects, and the request is
    not a navigation or no partition holds the index document.  A match in
    any partition is returned without a fetch and without any change; and
    the handler never issues more than the one fetch of the request. *)
Theorem legacy_fetch_handler_may_resolve_undefined :
  forall self_location request s,
    exists v s',
      SwV1.fetch_handler self_location request s = (Ok v, s') /\
      (v = VUndefined <->
       (method request <> "GET" \/
        storage_match (caches s) (url request) = None) /\
       (exists e,
          network s (length (fetched s)) (FetchRequest request) = Rejected e) /\
       (mode request <> Navigate \/
        storage_match (caches s) (resolve self_location "/index.html") = None)) /\
      (forall hit,
         method request = "GET" ->
         storage_match (caches s) (url request) = Some hit ->
         v = VResponse hit /\ s' = s) /\
      (fetched s' = fetched s \/ fetched s' = fetched s ++ [FetchRequest request]).
Proof.
  intros loc request s. rewrite legacy_fetch_handler_run. cbv zeta.
  destruct (String.eqb (method request) "GET") eqn:Hm;
    [apply String.eqb_eq in Hm | apply String.eqb_neq in Hm].
  - destruct (storage_match (caches s) (url request)) as [hit|] eqn:Hhit.
    + eexists _, _. split; [reflexivity |]. split; [| split; [| auto]].
      * split; [discriminate |]. intros ([? | ?] & _); congruence.
      * intros h _ [= <-]. auto.
    + destruct (network s _ _) as [r|e] eqn:Hnet.
      * eexists _, _. split; [reflexivity |]. split; [| split].
        -- split; [discriminate |]. intros (_ & (e & [=]) & _).
        -- intros h _ [=].
        -- right. destruct (SwV1.cacheable request); reflexivity.
      * eexists _, _. split; [reflexivity |]. split; [| split; [| auto]].
        -- destruct (mode request) eqn:Hmode.
           1: destruct (storage_match (caches s) (resolve loc "/index.html"))
                as [d|] eqn:Hdoc.
           all: split;
             [ first [ discriminate
                     | intros _; split;
                       [ auto
                       | split;
                         [ eauto
                         | first [ left; discriminate | right; reflexivity ] ] ] ]
             | first [ intros (_ & _ & [? | ?]); congruence
                     | intros; reflexivity ] ].
        -- intros h _ [=].
  - destruct (network s _ _) as [r|e] eqn:Hnet.
    + eexists _, _. split; [reflexivity |]. split; [| split].
      * split; [discriminate |]. intros (_ & (e & [=]) & _).
      * intros h Hget. congruence.
      * right. destruct (SwV1.cacheable request); reflexivity.
    + eexists _, _. split; [reflexivity |]. split; [| split; [| auto]].
      * destruct (mode request) eqn:Hmode.
        1: destruct (storage_match (caches s) (resolve loc "/index.html"))
             as [d|] eqn:Hdoc.
        all: split;
          [ first [ discriminate
                  | intros _; split;
                    [ auto
                    | split;
                      [ eauto
                      | first [ left; discriminate | right; reflexivity ] ] ] ]
          | first [ intros (_ & _ & [? | ?]); congruence
                  | intros; reflexivity ] ].
      * intros h Hget. congruence.
Qed.

Lemma storage_match_put_fresh cs name key r :
  storage_match cs key = None ->
  is_Some (storage_get cs name) ->
  storage_match (storage_put cs name key r) key = Some r.
Proof.
  induction cs as [|[n c] cs IH]; simpl; intros Hnone Hsome.
  - destruct Hsome as [? [=]].
  - destruct (c !! key) eqn:Hc; [discriminate |].
    destruct (String.eqb n name); simpl.
    + rewrite lookup_insert_eq. reflexivity.
    + rewrite Hc. apply IH; assumption.
Qed.

(** X17: the fetch handler of sw.js caches what the network answers
    without testing whether the status is ok.  For a GET over http or
    https that no partition matches, a fetch that resolves is returned,
    and when the cache accepts the response (status other than 206, no
    [Vary: *]), ok or not, then once the pending put has settled the
    response is the entry of the request in vidya-cache-v1; the next call
    returns it from there and does not go to the network. *)
Theorem legacy_fetch_handler_skips_status_test :
  forall self_location request s r,
    SwV1.cacheable request = true ->
    pending s = [] ->
    storage_match (caches s) (url request) = None ->
    network s (length (fetched s)) (FetchRequest request) = Resolved r ->
    storable r = true ->
    let s1 := settle (snd (SwV1.fetch_handler self_location request s)) in
    fst (SwV1.fetch_handler self_location request s) = Ok (VResponse r) /\
    partition_get Legacy.CACHE_NAME (url request) s1 = Some r /\
    SwV1.fetch_handler self_location request s1 = (Ok (VResponse r), s1).
Proof.
  intros loc request s r Hcacheable Hp Hmiss Hnet Hst. cbv zeta.
  assert (Hget : String.eqb (method request) "GET" = true).
  { unfold SwV1.cacheable in Hcacheable.
    apply andb_true_iff in Hcacheable. tauto. }
  rewrite legacy_fetch_handler_run, Hget, Hmiss, Hnet, Hcacheable. cbv zeta.
  cbn [fst snd]. split; [reflexivity |].
  unfold settle, settle_round. simpl. rewrite Hp. simpl.
  unfold cache_put. rewrite Hst. simpl.
  destruct (storage_get_open_same (caches s) Legacy.CACHE_NAME) as [c Hc].
  split.
  - unfold partition_get. simpl. eapply lookup_in_put_same. exact Hc.
  - rewrite legacy_fetch_handler_run, Hget. simpl.
    rewrite storage_match_put_fresh; [reflexivity | | rewrite Hc; eauto].
    rewrite storage_match_open. exact Hmiss.
Qed.

Lemma legacy_fetch_handler_skips_status_test_not_found :
  let request := get_request "/missing.css" in
  let s1 :=
    settle (snd (SwV1.fetch_handler example_location request
                   (empty_world site_network))) in
  ok (mkResponse 404 "Not Found" [] "") = false /\
  partition_get Legacy.CACHE_NAME (url request) s1
    = Some (mkResponse 404 "Not Found" [] "") /\
  SwV1.fetch_handler example_location request s1
    = (Ok (VResponse (mkResponse 404 "Not Found" [] "")), s1).
Proof.
  cbv zeta. split; [reflexivity |].
  destruct (legacy_fetch_handler_skips_status_test example_location
              (get_request "/missing.css") (empty_world site_network)
              (mkResponse 404 "Not Found" [] "")
              eq_refl eq_refl eq_refl eq_refl eq_refl)
    as (_ & Hentry & Hnext).
  split; [exact Hentry | exact Hnext].
Defined.

(** ** The offline fallback and the network *)

(** X18: the offline fallback never goes to the network and never rejects.
    For a request that is not a navigation it leaves the world exactly as
    it was; for a navigation the only change it can make is to create the
    static partition, empty, when it does not exist; no partition entry
    changes either way. *)
Theorem handleOfflineFallback_is_passive :
  forall self_location request s,
    exists r s',
      handleOfflineFallback self_location request s = (Ok r, s') /\
      fetched s' = fetched s /\
      pending s' = pending s /\
      (mode request <> Navigate -> s' = s) /\
      (forall name key, partition_get name key s' = partition_get name key s) /\
      (forall name,
         name <> STATIC_CACHE ->
         storage_get (caches s') name = storage_get (caches s) name).
Proof.
  intros loc request s.
  destruct (handleOfflineFallback_state loc request s) as (s' & Hrun & Hs').
  exists (fallback_choice loc request s), s'. split; [exact Hrun |].
  assert (Hnav : mode request <> Navigate -> s' = s).
  { intros Hmode. revert Hrun.
    unfold handleOfflineFallback. unfold_monad.
    destruct (mode request); [congruence | | |];
      simpl; destruct (storage_match (caches s) (url request));
      intros [= _ <-]; reflexivity. }
  destruct Hs' as [-> | ->].
  - repeat split; auto.
  - simpl. repeat split; auto.
    + intros name key. unfold partition_get. simpl. apply lookup_in_open.
    + intros name Hne. rewrite storage_get_open.
      destruct (storage_get (caches s) name); [reflexivity |].
      destruct (String.eqb STATIC_CACHE name) eqn:E; [| reflexivity].
      apply String.eqb_eq in E. congruence.
Qed.

(** ** Activation in the first worker (sw.js) *)

(** X19: activation in sw.js keeps the partition named vidya-cache-v1,
    content untouched, and deletes every other partition there is, whatever
    its name: it has no test on the owner of a partition. *)
Theorem legacy_activate_deletes_all_others :
  forall s,
    exists s',
      Legacy.activate s = (Ok tt, s') /\
      (forall name,
         In name (map fst (caches s')) <->
         name = "vidya-cache-v1" /\ In name (map fst (caches s))) /\
      storage_get (caches s') "vidya-cache-v1" =
      storage_get (caches s) "vidya-cache-v1".
Proof.
  intros s. destruct (legacy_activate_run s) as (s' & Hrun & Hc).
  exists s'. split; [exact Hrun |]. rewrite Hc. split.
  - intros name. rewrite !List.in_map_iff. split.
    + intros ([n c] & <- & Hin). apply List.filter_In in Hin.
      destruct Hin as [Hin E]. simpl in *. apply String.eqb_eq in E.
      split; [exact E |]. exists (n, c). auto.
    + intros [-> ([n c] & E & Hin)]. simpl in E. subst n.
      exists ("vidya-cache-v1", c). split; [reflexivity |].
      apply List.filter_In. split; [exact Hin | reflexivity].
  - clear Hrun Hc. induction (caches s) as [|[n c] cs IH]; [reflexivity |].
    simpl. unfold Legacy.CACHE_NAME in *.
    destruct (String.eqb n "vidya-cache-v1") eqn:E; simpl.
    + rewrite E. reflexivity.
    + exact IH.
Qed.

(** ** From installation to interception *)


